(** * Authentication and session validation of the product CRUD service

    A shallow embedding of [auth.py], of the models of [model.py], of
    [utils.py] and of the handlers of [main.py], with the properties the
    specification states about them, proved as stated or as the code
    amends them, and further properties of the code.

    Conventions of the embedding.

    - A Python [str] is a Rocq [string]; one [ascii] stands for one
      character, so [len] is [String.length].
    - A Python [dict] with string keys is a [gmap string value].
    - A call that raises is a computation in [Outcome]: [Return v] or
      [Raise e].  The exceptions are the ones the source raises or catches.
    - [datetime.utcnow()] is an explicit argument [utcnow : Z], an instant
      counted in seconds; a [timedelta] is a number of seconds.
    - The table [usuarios] is the list of its rows; [fetchone] takes the
      first row the query selects.
    - The third-party libraries the source calls (the JWT library, the
      password context, the bearer scheme) are interfaces: the source is
      embedded once, for every implementation of them.
    - A Python [bytes] is a [string] too, one [ascii] for one byte. *)

From Stdlib Require Import ZArith Ascii String List Bool Lia.
From Stdlib Require DecimalString.
From stdpp Require Import base option gmap strings list fin_maps sorting.

Local Open Scope Z_scope.
Local Open Scope string_scope.

(* ===================================================================== *)
(** ** Python values, dictionaries and exceptions *)
(* ===================================================================== *)

Inductive value :=
| VNone
| VInt (n : Z)
| VStr (s : string)
| VDatetime (t : Z).

#[global] Instance value_eq_dec : EqDecision value.
Proof. solve_decision. Defined.

Abbreviation dict := (gmap string value).

(** [d.get(key)]: the value under [key], [None] when the key is absent. *)
Definition dict_get (d : dict) (key : string) : value :=
  default VNone (d !! key).

(** The exceptions that leave a handler or a dependency: the
    [HTTPException]s of the source, the validation error of a request body,
    and the failure of the bearer scheme, which is the framework's. *)
Inductive exn :=
| HTTPException (status_code : Z) (detail : string)
                (headers : list (string * string))
| RequestValidationError (field : string)
| MissingCredential.

(** The [JWTError]s of the JWT library: the token is not a well-signed token
    of the expected algorithm, or it is one and has expired. *)
Inductive JWTError := InvalidToken | ExpiredToken.

Inductive Outcome (A : Type) :=
| Return (a : A)
| Raise (e : exn).
Arguments Return {A} a.
Arguments Raise {A} e.

Definition bind {A B} (m : Outcome A) (k : A -> Outcome B) : Outcome B :=
  match m with
  | Return a => k a
  | Raise e => Raise e
  end.

Declare Scope py_scope.
Delimit Scope py_scope with py.
Notation "'let*' x := m 'in' k" := (bind m (fun x => k))
  (at level 10, x name, m at level 100, k at level 200) : py_scope.
Local Open Scope py_scope.

Definition HTTP_401_UNAUTHORIZED : Z := 401.
Definition HTTP_400_BAD_REQUEST : Z := 400.

(* ===================================================================== *)
(** ** Dictionaries as objects *)
(* ===================================================================== *)

(** Python passes a dictionary by reference.  A heap maps the references in
    use to the dictionaries they hold; a computation on the heap fails only
    on a reference that is not allocated. *)
Abbreviation loc := positive.
Abbreviation heap := (gmap loc dict).

Definition Heap (A : Type) : Type := heap -> option (A * heap).

#[global] Instance Heap_ret : MRet Heap := fun A a h => Some (a, h).
#[global] Instance Heap_bind : MBind Heap := fun A B k m h =>
  match m h with
  | Some (a, h') => k a h'
  | None => None
  end.

(** Reading through a reference. *)
Definition dict_read (l : loc) : Heap dict := fun h =>
  match h !! l with
  | Some d => Some (d, h)
  | None => None
  end.

(** [d.copy()]: a new object with the same items. *)
Definition dict_copy (l : loc) : Heap loc := fun h =>
  match h !! l with
  | Some d => let l' := fresh (dom h) in Some (l', <[l' := d]> h)
  | None => None
  end.

(** [d.update(other)]: the items of [other] are written into the object
    [l] refers to; a key of [other] replaces the same key of [d]. *)
Definition dict_update (l : loc) (other : dict) : Heap unit := fun h =>
  match h !! l with
  | Some d => Some (tt, <[l := other ∪ d]> h)
  | None => None
  end.

(* ===================================================================== *)
(** ** model.py: the user models *)
(* ===================================================================== *)

(** [class Usuario(UsuarioBase)]: a row of [usuarios]. *)
Record Usuario := {
  id : Z;
  username : string;
  email : string;
  hashed_password : string;
  is_active : bool
}.

#[global] Instance Usuario_eq_dec : EqDecision Usuario.
Proof. solve_decision. Defined.

(** [class UsuarioCreate(UsuarioBase)]:
    [password: str = Field(..., min_length=6)]. *)
Record UsuarioCreate := {
  uc_username : string;
  uc_email : string;
  uc_password : string
}.

(** [class UsuarioResponse(UsuarioBase)]. *)
Record UsuarioResponse := {
  ur_id : Z;
  ur_username : string;
  ur_email : string;
  ur_is_active : bool
}.

Definition password_min_length : nat := 6.

(** The validation pydantic runs when it builds a [UsuarioCreate] from the
    request body: the only constraint is [min_length=6] on [password]. *)
Definition UsuarioCreate_validate (username email password : string)
  : Outcome UsuarioCreate :=
  if (String.length password <? password_min_length)%nat
  then Raise (RequestValidationError "password")
  else Return {| uc_username := username; uc_email := email;
                 uc_password := password |}.

(** [class LoginRequest(BaseModel)] of main.py. *)
Record LoginRequest := {
  lr_username : string;
  lr_password : string
}.

(** The store behind the connection pool: the table [usuarios], the
    sequence of its [id] column, and a journal of what the handlers did to
    it, most recent first. *)
Inductive operation :=
| Select_username_or_email (username email : string)
| Hash_password (password : string)
| Insert_usuario (row : Usuario)
| Commit
| Rollback.

Record Database := {
  usuarios : list Usuario;
  usuarios_id_seq : Z;
  journal : list operation
}.

Definition did (op : operation) (db : Database) : Database :=
  {| usuarios := db.(usuarios);
     usuarios_id_seq := db.(usuarios_id_seq);
     journal := op :: db.(journal) |}.

(* ===================================================================== *)
(** ** The libraries the source calls *)
(* ===================================================================== *)

(** [jose.jwt]: [jwt.encode(claims, key, algorithm=alg)] and
    [jwt.decode(token, key, algorithms=algs)].  [decode] reads the clock,
    which is its last argument here; it returns the payload or raises a
    [JWTError].  [token] is the token string as the library reads it. *)
Class Jose := {
  token : Type;
  jwt_encode : dict -> string -> string -> token;
  jwt_decode : token -> string -> list string -> Z -> JWTError + dict
}.

(** [passlib.context.CryptContext]: [pwd_context.verify(secret, hash)] and
    [pwd_context.hash(secret)]; the salt [hash] draws is an argument.  The
    source calls both bare, with no handler around them and the annotation
    [-> bool] on the first: the interface gives them no exception, it is
    the context where the two calls return.  Where they raise is in
    [PasswordHasher]. *)
Class CryptContext := {
  salt : Type;
  pwd_context_verify : string -> string -> bool;
  pwd_context_hash : salt -> string -> string
}.

(** [class Token(BaseModel)] of model.py. *)
Record Token `{Jose} := {
  access_token : token;
  token_type : string
}.

(** [fastapi.security.HTTPAuthorizationCredentials]. *)
Record HTTPAuthorizationCredentials `{Jose} := {
  scheme : string;
  credentials : token
}.

(** [fastapi.security.HTTPBearer]: called on a request, it returns the
    credentials the [Authorization] header carries or raises. *)
Class SecurityScheme `{Jose} := {
  Request : Type;
  HTTPBearer : Request -> Outcome HTTPAuthorizationCredentials
}.

(* ===================================================================== *)
(** ** auth.py *)
(* ===================================================================== *)

Definition ALGORITHM : string := "HS256".

(** [timedelta(minutes=m)]. *)
Definition timedelta_minutes (m : Z) : Z := 60 * m.

(** Truth value of a [timedelta]: false exactly for the zero duration. *)
Definition timedelta_bool (d : Z) : bool := negb (Z.eqb d 0).

(** The condition [username = %s] of the query, on one row.  The column is
    text, so only a text parameter can equal it. *)
Definition username_matches (param : value) (row : Usuario) : bool :=
  bool_decide (VStr row.(username) = param).

(** [SELECT ... FROM usuarios WHERE username = %s] followed by [fetchone]:
    the first row whose [username] column equals the parameter, rebuilt as a
    [Usuario]; [None] when no row is selected. *)
Definition get_user_by_username (usuarios : list Usuario) (username : value)
  : option Usuario :=
  List.find (username_matches username) usuarios.

Section Service.
Context `{jose : Jose} `{pwd_context : CryptContext}.
Context `{security : !SecurityScheme}.

(** [os.getenv("JWT_SECRET_KEY", ...)] and
    [int(os.getenv("ACCESS_TOKEN_EXPIRE_MINUTES", "30"))]. *)
Variable SECRET_KEY : string.
Variable ACCESS_TOKEN_EXPIRE_MINUTES : Z.

Definition verify_password (plain_password hashed_password : string) : bool :=
  pwd_context_verify plain_password hashed_password.

Definition get_password_hash (s : salt) (password : string) : string :=
  pwd_context_hash s password.

(** [expires_delta if expires_delta else timedelta(minutes=...)]. *)
Definition token_lifetime (expires_delta : option Z) : Z :=
  match expires_delta with
  | Some d =>
      if timedelta_bool d then d
      else timedelta_minutes ACCESS_TOKEN_EXPIRE_MINUTES
  | None => timedelta_minutes ACCESS_TOKEN_EXPIRE_MINUTES
  end.

(** On dictionaries as values: [to_encode] is the copy, [update] rebinds
    ["exp"] in it. *)
Definition create_access_token (data : dict) (expires_delta : option Z)
    (utcnow : Z) : token :=
  let to_encode := data in
  let expire := utcnow + token_lifetime expires_delta in
  let to_encode := <["exp" := VDatetime expire]> to_encode in
  jwt_encode to_encode SECRET_KEY ALGORITHM.

(** The same function on dictionaries as objects: [data] is a reference
    the caller keeps, [data.copy()] allocates, [to_encode.update(...)]
    writes through the reference [to_encode], and [jwt.encode] reads the
    object it is handed. *)
Definition create_access_token_ref (data : loc) (expires_delta : option Z)
    (utcnow : Z) : Heap token :=
  to_encode ← dict_copy data;
  let expire := utcnow + token_lifetime expires_delta in
  _ ← dict_update to_encode {["exp" := VDatetime expire]};
  claims ← dict_read to_encode;
  mret (jwt_encode claims SECRET_KEY ALGORITHM).

(** [oauth2_scheme = HTTPBearer()]. *)
Definition oauth2_scheme (request : Request)
  : Outcome HTTPAuthorizationCredentials :=
  HTTPBearer request.

(** The one exception [verify_token] raises. *)
Definition token_rejected : exn :=
  HTTPException HTTP_401_UNAUTHORIZED "Token inválido o expirado"
                [("WWW-Authenticate", "Bearer")].

(** [try: ... return payload / except JWTError: raise HTTPException(...)]. *)
Definition verify_token (tok : token) (utcnow : Z) : Outcome dict :=
  match jwt_decode tok SECRET_KEY [ALGORITHM] utcnow with
  | inr payload => Return payload
  | inl _ => Raise token_rejected
  end.

Definition authenticate_user (usuarios : list Usuario)
    (username password : string) : option Usuario :=
  match get_user_by_username usuarios (VStr username) with
  | None => None
  | Some user =>
      if negb (verify_password password user.(hashed_password)) then None
      else if negb user.(is_active) then None
      else Some user
  end.

Definition subject_missing : exn :=
  HTTPException HTTP_401_UNAUTHORIZED "Token inválido: no contiene 'sub'" [].

Definition user_not_found : exn :=
  HTTPException HTTP_401_UNAUTHORIZED "Usuario no encontrado" [].

Definition inactive_user : exn :=
  HTTPException 400 "Usuario inactivo" [].

Definition get_current_user (usuarios : list Usuario)
    (token_data : HTTPAuthorizationCredentials) (utcnow : Z)
  : Outcome Usuario :=
  let tok := token_data.(credentials) in
  let* payload := verify_token tok utcnow in
  let username := dict_get payload "sub" in
  if bool_decide (username = VNone) then Raise subject_missing
  else
    match get_user_by_username usuarios username with
    | None => Raise user_not_found
    | Some user => Return user
    end.

Definition get_current_active_user (current_user : Usuario)
  : Outcome Usuario :=
  if negb current_user.(is_active) then Raise inactive_user
  else Return current_user.

(* ===================================================================== *)
(** ** main.py: dependencies, [/login], [/me], [/register] *)
(* ===================================================================== *)

(** [Depends(oauth2_scheme)] feeding [get_current_user]: the framework
    resolves the inner dependency first and calls the outer one with its
    result; an exception in either ends the resolution. *)
Definition Depends_get_current_user (usuarios : list Usuario)
    (request : Request) (utcnow : Z) : Outcome Usuario :=
  let* token_data := oauth2_scheme request in
  get_current_user usuarios token_data utcnow.

(** [Depends(get_current_user)] feeding [get_current_active_user]. *)
Definition Depends_get_current_active_user (usuarios : list Usuario)
    (request : Request) (utcnow : Z) : Outcome Usuario :=
  let* current_user := Depends_get_current_user usuarios request utcnow in
  get_current_active_user current_user.

(** A path operation declared with
    [current_user: Usuario = Depends(get_current_active_user)].  Its body
    [handler] works on a state [W] (the product tables) and is called
    with the resolved user; when the dependency raises, the framework
    answers with that exception and the body is not called. *)
Definition protected {W R : Type} (handler : Usuario -> W -> Outcome R * W)
    (usuarios : list Usuario) (request : Request) (utcnow : Z) (w : W)
  : Outcome R * W :=
  match Depends_get_current_active_user usuarios request utcnow with
  | Return current_user => handler current_user w
  | Raise e => (Raise e, w)
  end.

(** [GET /me]. *)
Definition get_current_user_info (current_user : Usuario) : UsuarioResponse :=
  {| ur_id := current_user.(id);
     ur_username := current_user.(username);
     ur_email := current_user.(email);
     ur_is_active := current_user.(is_active) |}.

Definition invalid_credentials : exn :=
  HTTPException HTTP_401_UNAUTHORIZED "Usuario o contraseña incorrectos" [].

(** [POST /login]. *)
Definition login (usuarios : list Usuario) (data : LoginRequest)
    (utcnow : Z) : Outcome Token :=
  match authenticate_user usuarios data.(lr_username) data.(lr_password) with
  | None => Raise invalid_credentials
  | Some user =>
      let access_token_expires :=
        timedelta_minutes ACCESS_TOKEN_EXPIRE_MINUTES in
      let access_token :=
        create_access_token {["sub" := VStr user.(username)]}
                            (Some access_token_expires) utcnow in
      Return {| access_token := access_token; token_type := "bearer" |}
  end.

Definition already_registered : exn :=
  HTTPException HTTP_400_BAD_REQUEST "El usuario o email ya está registrado" [].

(** The condition [username = %s OR email = %s] of the query, on one row. *)
Definition username_or_email_taken (usuario : UsuarioCreate) (row : Usuario)
  : bool :=
  bool_decide (row.(username) = usuario.(uc_username))
  || bool_decide (row.(email) = usuario.(uc_email)).

(** The body of [POST /register], on a store that answers every query:
    look for a row with the username or the email, hash the password,
    insert the row with the next identifier, commit. *)
Definition register (s : salt) (usuario : UsuarioCreate) (db : Database)
  : Outcome UsuarioResponse * Database :=
  let db := did (Select_username_or_email usuario.(uc_username)
                                          usuario.(uc_email)) db in
  if existsb (username_or_email_taken usuario) db.(usuarios)
  then (Raise already_registered, did Rollback db)
  else
    let hashed_password := get_password_hash s usuario.(uc_password) in
    let db := did (Hash_password usuario.(uc_password)) db in
    let user_id := db.(usuarios_id_seq) in
    let row := {| id := user_id;
                  username := usuario.(uc_username);
                  email := usuario.(uc_email);
                  hashed_password := hashed_password;
                  is_active := true |} in
    let db := did Commit (did (Insert_usuario row)
                {| usuarios := db.(usuarios) ++ [row];
                   usuarios_id_seq := user_id + 1;
                   journal := db.(journal) |}) in
    (Return {| ur_id := user_id;
               ur_username := usuario.(uc_username);
               ur_email := usuario.(uc_email);
               ur_is_active := true |}, db).

(** [POST /register] as the framework serves it: the body of the request
    is validated into a [UsuarioCreate] first, and [register] is called
    only with a valid one. *)
Definition register_endpoint (s : salt) (username email password : string)
    (db : Database) : Outcome UsuarioResponse * Database :=
  match UsuarioCreate_validate username email password with
  | Return usuario => register s usuario db
  | Raise e => (Raise e, db)
  end.

End Service.

(* ===================================================================== *)
(** ** Strings *)
(* ===================================================================== *)

(** [c.lower()] on one character.  The characters are the code points
    below 256: the upper-case letters are [A]-[Z] and U+00C0-U+00DE
    without the multiplication sign U+00D7, each 32 below its lower-case
    letter. *)
Definition lower_char (c : ascii) : ascii :=
  let n := nat_of_ascii c in
  if ((65 <=? n) && (n <=? 90)
      || (192 <=? n) && (n <=? 222) && negb (n =? 215))%nat
  then ascii_of_nat (n + 32)
  else c.

(** [s.lower()]. *)
Fixpoint lower (s : string) : string :=
  match s with
  | EmptyString => EmptyString
  | String c rest => String (lower_char c) (lower rest)
  end.

(** [needle in haystack] on strings. *)
Fixpoint contains (needle haystack : string) : bool :=
  String.prefix needle haystack
  || match haystack with
     | EmptyString => false
     | String _ rest => contains needle rest
     end.

(** [str(n)] for an [int]: the decimal digits, with a sign when negative. *)
Definition str_of_int (n : Z) : string :=
  DecimalString.NilZero.string_of_int (Z.to_int n).

(** [s.encode("utf-8")], the bytes again as a string, one [ascii] for one
    byte: a character below U+0080 is one byte, a character from U+0080 to
    U+00FF is two. *)
Definition encode_utf8_char (c : ascii) : string :=
  let n := N_of_ascii c in
  if (n <? 128)%N then String c EmptyString
  else String (ascii_of_N (192 + n / 64))
         (String (ascii_of_N (128 + n mod 64)) EmptyString).

Fixpoint encode_utf8 (s : string) : string :=
  match s with
  | EmptyString => EmptyString
  | String c rest => encode_utf8_char c ++ encode_utf8 rest
  end.

(** The character U+0000, as a string of one character. *)
Definition NUL : string := String Ascii.zero EmptyString.

(* ===================================================================== *)
(** ** The libraries, modelled *)
(* ===================================================================== *)

(** The three libraries are not in src.  They are modelled from what the
    specification says of them and, where the library the source calls
    does something else than those words (the instant at which a token
    expires, a string that is no hash handed to the password context, the
    length of a password that bcrypt reads), from what the library does:
    the departure is stated at the definition. *)

Module HMAC.
Section Mac.

(** Modelled from the spec: the JWT library is not in src.  Section 4.2
    and [ALGORITHM] name HMAC-SHA-256.  The hash function, on byte strings
    and with blocks of 64 bytes, is a parameter; so is the serialization of
    the algorithm name and the claim set that the signature covers. *)
Variable H : string -> string.
Variable signing_input : string -> dict -> string.

Definition block_size : nat := 64.

(** The bytes 0x36 and 0x5c. *)
Definition ipad : ascii := ascii_of_nat 54.
Definition opad : ascii := ascii_of_nat 92.

Fixpoint zeros (n : nat) : string :=
  match n with
  | O => EmptyString
  | S n' => String Ascii.zero (zeros n')
  end.

(** Modelled from the spec: the JWT library is not in src.  HMAC prepares
    its key to one block: a key longer than a block is hashed first, and
    the key is then filled up with zero bytes to the size of a block. *)
Definition key_block (key : string) : string :=
  let key := if (block_size <? String.length key)%nat then H key else key in
  key ++ zeros (block_size - String.length key).

Definition xor_byte (pad c : ascii) : ascii :=
  ascii_of_N (N.lxor (N_of_ascii pad) (N_of_ascii c)).

Fixpoint xor_block (pad : ascii) (block : string) : string :=
  match block with
  | EmptyString => EmptyString
  | String c rest => String (xor_byte pad c) (xor_block pad rest)
  end.

(** Modelled from the spec: the JWT library is not in src.  HMAC of a
    message under a key: the hash of the key block under the outer pad
    followed by the hash of the key block under the inner pad followed by
    the message. *)
Definition hmac (key msg : string) : string :=
  let block := key_block key in
  H (xor_block opad block ++ H (xor_block ipad block ++ msg)).

(** Modelled from the spec: the JWT library is not in src.  The signature
    of a token: the HMAC, under the bytes of the key string, of the
    serialized algorithm name and claim set. *)
Definition sign (key alg : string) (claims : dict) : string :=
  hmac (encode_utf8 key) (signing_input alg claims).

End Mac.
End HMAC.

Module TokenCodec.
Section Codec.

(** The keyed signature ([HMAC.sign] in the service): key, algorithm and
    claim set to signature.  It is a parameter of the codec. *)
Variable mac : string -> string -> dict -> string.

(** Modelled from the spec: the JWT library is not in src.  Section 3: a
    session token is a signed, self-contained credential.  The token string
    is seen through its parse: not a token at all, or an algorithm name, a
    claim set and a signature. *)
Inductive jws :=
| Unreadable (raw : string)
| Signed (alg : string) (claims : dict) (signature : string).

(** Modelled from the spec: the JWT library is not in src.  Section 4.2:
    the claim set contains the expiration instant; it is read under
    ["exp"], the key the source writes it to. *)
Definition expiration (claims : dict) : option Z :=
  match claims !! "exp" with
  | Some (VDatetime t) => Some t
  | Some (VInt t) => Some t
  | _ => None
  end.

(** Modelled from the spec: the JWT library is not in src.  The expiration
    instant of a token is the one of its claim set. *)
Definition token_expiration (tok : jws) : option Z :=
  match tok with
  | Unreadable _ => None
  | Signed _ claims _ => expiration claims
  end.

(** Modelled from the spec: the JWT library is not in src.  Section 4.2:
    issuing serializes the claim set and signs it with the secret key using
    a fixed symmetric algorithm. *)
Definition issue (claims : dict) (key alg : string) : jws :=
  Signed alg claims (mac key alg claims).

(** Modelled from the spec: the JWT library is not in src.  Section 4.2:
    validation verifies the signature against the secret key and algorithm;
    it fails with [InvalidToken] if signature verification fails, the
    structure is malformed, or the algorithm does not match the expected
    one; it fails with [ExpiredToken] when the token has expired; on
    success it returns the claim set.  The expiry test is the library's and
    not the one of section 4.2: [jwt.decode] raises its expiry error when
    the expiration instant is before the clock reading, [exp < now], so a
    token still validates at the instant of its expiration, where section
    4.2 has it fail. *)
Definition validate (tok : jws) (key : string) (algorithms : list string)
    (now : Z) : JWTError + dict :=
  match tok with
  | Unreadable _ => inl InvalidToken
  | Signed alg claims signature =>
      if negb (bool_decide (alg ∈ algorithms)) then inl InvalidToken
      else if negb (String.eqb signature (mac key alg claims))
      then inl InvalidToken
      else
        match expiration claims with
        | Some exp => if (exp <? now)%Z then inl ExpiredToken else inr claims
        | None => inr claims
        end
  end.

(** Modelled from the spec: the JWT library is not in src.  The codec of
    section 4.2 as an implementation of the interface the source calls. *)
Definition jose : Jose :=
  {| token := jws; jwt_encode := issue; jwt_decode := validate |}.

End Codec.
End TokenCodec.

Module PasswordHasher.

(** What the password context raises on [str] arguments:
    [UnknownHashError] and the error of a malformed hash for the hash
    string, [PasswordValueError] for the secret.  Each of them is a
    [ValueError], and one constructor stands for them. *)
Inductive PasslibError := ValueError.

Section Hasher.

(** The scheme is bcrypt ([CryptContext(schemes=["bcrypt"])], auth.py 25).
    Its digest is a parameter: salt and bytes of the secret to the hash
    string, which embeds the salt; so is the reading of the salt back from
    a hash string, [None] on a string that is not a hash of the scheme. *)
Variable Salt : Type.
Variable kdf : Salt -> string -> string.
Variable salt_of : string -> option Salt.

(** The longest secret the context takes, in characters. *)
Definition MAX_PASSWORD_SIZE : nat := 4096.

(** The number of bytes of the secret that bcrypt reads. *)
Definition truncate_size : nat := 72.

(** The secrets the context takes: at most [MAX_PASSWORD_SIZE] characters
    and no NUL byte; it raises on any other. *)
Definition accepts (secret : string) : bool :=
  (String.length secret <=? MAX_PASSWORD_SIZE)%nat
  && negb (contains NUL (encode_utf8 secret)).

(** What bcrypt reads of a secret: the first [truncate_size] bytes of its
    UTF-8 encoding.  Section 4.1 does not say so; the scheme does. *)
Definition secret_bytes (secret : string) : string :=
  String.substring 0 truncate_size (encode_utf8 secret).

(** Modelled from the spec: the password context is not in src.
    Section 4.1: [hash] produces a salted one-way hash. *)
Definition hash (s : Salt) (plaintext : string) : string :=
  kdf s (secret_bytes plaintext).

(** Modelled from the spec: the password context is not in src.
    Section 4.1: [verify] recomputes and compares.  This is the call where
    it returns.  On a string that is not a hash the library does not
    return false, as section 4.1 words it: it raises (see
    [CryptContext_verify]); the interface of the service has no exception,
    and [false] there is no answer of the library. *)
Definition verify (plaintext hashString : string) : bool :=
  match salt_of hashString with
  | Some s => String.eqb (kdf s (secret_bytes plaintext)) hashString
  | None => false
  end.


(** [pwd_context.verify(secret, hash)] with what it raises: the context
    identifies the scheme of the hash string and raises when it cannot;
    then the scheme checks the secret, recomputes and compares. *)
Definition CryptContext_verify (secret hashString : string)
  : PasslibError + bool :=
  match salt_of hashString with
  | None => inl ValueError
  | Some s =>
      if accepts secret
      then inr (String.eqb (kdf s (secret_bytes secret)) hashString)
      else inl ValueError
  end.

(** Modelled from the spec: the password context is not in src.  The
    hasher of section 4.1 as an implementation of the interface the source
    calls. *)
Definition context : CryptContext :=
  {| salt := Salt; pwd_context_verify := verify; pwd_context_hash := hash |}.

End Hasher.
End PasswordHasher.

Module Bearer.
Section Scheme.
Context `{jose : Jose}.

(** Modelled from the spec: the bearer scheme is the framework's, not in
    src.  Section 4.4: the raw request carries an
    [Authorization: Bearer <token>] header; here it carries nothing, or a
    scheme word and, after it, a token or nothing. *)
Record request := {
  authorization : option (string * option token)
}.

(** Modelled from the spec: the bearer scheme is the framework's, not in
    src.  Section 4.4: extract the token string of an
    [Authorization: Bearer <token>] header; fail with [MissingCredential]
    if the header is absent or malformed.  The framework reads the scheme
    word without regard to letter case. *)
Definition extract (r : request) : Outcome HTTPAuthorizationCredentials :=
  match r.(authorization) with
  | Some (word, Some tok) =>
      if String.eqb (lower word) "bearer"
      then Return {| scheme := word; credentials := tok |}
      else Raise MissingCredential
  | _ => Raise MissingCredential
  end.

(** Modelled from the spec: the bearer scheme is the framework's, not in
    src.  The extraction of section 4.4 as an implementation of the
    interface the source calls. *)
Definition security : SecurityScheme :=
  {| Request := request; HTTPBearer := extract |}.

End Scheme.
End Bearer.

(* ===================================================================== *)
(** ** A small instance of the libraries *)
(* ===================================================================== *)

(** An instance on which the statements below are run.  The hash function
    of the signature returns its input, and the signing input is the
    algorithm name followed by the claims in the order of their keys; the
    hash string of a password is a scheme mark, the salt character and the
    bytes bcrypt reads of the password. *)
Module Sample.

Definition H (bytes : string) : string := bytes.

Definition render (v : value) : string :=
  match v with
  | VNone => "null"
  | VInt n => str_of_int n
  | VStr s => s
  | VDatetime t => str_of_int t
  end.

Definition signing_input (alg : string) (claims : dict) : string :=
  alg ++ "."
  ++ String.concat ","
       (List.map (fun item => fst item ++ ":" ++ render (snd item))
                 (map_to_list claims)).

Definition mac : string -> string -> dict -> string :=
  HMAC.sign H signing_input.

Definition kdf (s : ascii) (bytes : string) : string :=
  "$2b$" ++ String s bytes.

Definition salt_of (hashString : string) : option ascii :=
  match hashString with
  | String "$" (String "2" (String "b" (String "$" (String s _)))) => Some s
  | _ => None
  end.

Definition jose : Jose := TokenCodec.jose mac.
Definition pwd_context : CryptContext := PasswordHasher.context ascii kdf salt_of.
Definition security : SecurityScheme := @Bearer.security jose.

Definition SECRET_KEY : string := "super-secret-key-cambiar".
Definition ACCESS_TOKEN_EXPIRE_MINUTES : Z := 30.

Definition alice : Usuario :=
  {| id := 1; username := "alice"; email := "alice@example.org";
     hashed_password := kdf "s" "secret1"; is_active := true |}.

Definition alice_inactive : Usuario :=
  {| id := 1; username := "alice"; email := "alice@example.org";
     hashed_password := kdf "s" "secret1"; is_active := false |}.

Definition bearer (tok : @token jose) : @Request jose security :=
  {| Bearer.authorization := Some ("Bearer", Some tok) |}.

Definition claims_of_alice : dict := {["sub" := VStr "alice"]}.

(** The token of a login of alice at instant 1000, valid for 30 minutes. *)
Definition token_of_alice : @token jose :=
  create_access_token (jose := jose) SECRET_KEY ACCESS_TOKEN_EXPIRE_MINUTES
                      claims_of_alice None 1000.

Definition payload_of_alice : dict :=
  <["exp" := VDatetime 2800]> claims_of_alice.

Definition empty_store : Database :=
  {| usuarios := []; usuarios_id_seq := 1; journal := [] |}.




End Sample.

(* ===================================================================== *)
(** ** model.py: the product models *)
(* ===================================================================== *)

(** [class ProductoCreate(BaseModel)].  A [date] is the number of its day. *)
Record ProductoCreate := {
  nombre : string;
  descripcion : string;
  estado : string;
  fecha_entrada : Z;
  nivel_minimo_stock : Z;
  proveedor_id : Z;
  impuesto_id : Z
}.

(** [class Producto(BaseModel)]. *)
Record Producto := {
  p_id : Z;
  p_nombre : string;
  p_descripcion : string;
  p_estado : string;
  p_fecha_entrada : Z;
  p_nivel_minimo_stock : Z;
  p_proveedor_id : Z;
  p_impuesto_id : Z
}.

#[global] Instance Producto_eq_dec : EqDecision Producto.
Proof. solve_decision. Defined.

(** What a field validator does: it returns the value the field takes or
    raises [ValueError]. *)
Inductive validated (A : Type) :=
| Valid (a : A)
| ValueError (msg : string).
Arguments Valid {A} a.
Arguments ValueError {A} msg.

(** [validar_estado]. *)
Definition validar_estado (v : string) : validated string :=
  if negb (bool_decide (lower v ∈ ["activo"; "descontinuado"]))
  then ValueError "El estado debe ser 'activo' o 'descontinuado'"
  else Valid (lower v).

(** [validar_fecha_entrada]; [date.today()] is the argument [today]. *)
Definition validar_fecha_entrada (today : Z) (v : Z) : validated Z :=
  if (today <? v)%Z
  then ValueError "La fecha de entrada no puede ser futura"
  else Valid v.

(** The body of a product request, before validation; [descripcion] may be
    left out. *)
Record ProductoBody := {
  b_nombre : string;
  b_descripcion : option string;
  b_estado : string;
  b_fecha_entrada : Z;
  b_nivel_minimo_stock : Z;
  b_proveedor_id : Z;
  b_impuesto_id : Z
}.

(** The constraints of the fields, one by one, in the order of the class:
    the name of the field when its value is refused. *)
Definition ProductoCreate_errors (today : Z) (body : ProductoBody)
  : list string :=
  (if ((String.length body.(b_nombre) <? 1)
       || (255 <? String.length body.(b_nombre)))%nat
   then ["nombre"] else [])
  ++ (if (1000 <? String.length (default "" body.(b_descripcion)))%nat
      then ["descripcion"] else [])
  ++ (match validar_estado body.(b_estado) with
      | Valid _ => []
      | ValueError _ => ["estado"]
      end)
  ++ (match validar_fecha_entrada today body.(b_fecha_entrada) with
      | Valid _ => []
      | ValueError _ => ["fecha_entrada"]
      end)
  ++ (if (0 <? body.(b_nivel_minimo_stock))%Z then []
      else ["nivel_minimo_stock"]).

(** The validation pydantic runs when it builds a [ProductoCreate]: every
    field is checked, the refused fields are reported together, and the
    model is built, with the values the validators return, only when no
    field is refused. *)
Definition ProductoCreate_validate (today : Z) (body : ProductoBody)
  : list string + ProductoCreate :=
  match ProductoCreate_errors today body with
  | [] =>
      inr {| nombre := body.(b_nombre);
             descripcion := default "" body.(b_descripcion);
             estado := lower body.(b_estado);
             fecha_entrada := body.(b_fecha_entrada);
             nivel_minimo_stock := body.(b_nivel_minimo_stock);
             proveedor_id := body.(b_proveedor_id);
             impuesto_id := body.(b_impuesto_id) |}
  | refused => inl refused
  end.

(* ===================================================================== *)
(** ** utils.py *)
(* ===================================================================== *)

(** A cursor after a query: [description] has one entry per column of the
    result, the name first, then the type code. *)
Record cursor := {
  description : list (string * Z)
}.

Section Rows.
Context {A : Type}.

(** [dict(zip(keys, values))]: the pairs are inserted from left to right,
    so of two pairs with one key the later one stays; [zip] stops at the
    shorter list. *)
Definition dict_zip (keys : list string) (values : list A) : gmap string A :=
  foldl (fun d kv => <[kv.1 := kv.2]> d) ∅ (zip keys values).

(** [row_to_dict(cursor, row)]; a row is a tuple or [None]. *)
Definition row_to_dict (cur : cursor) (row : option (list A))
  : option (gmap string A) :=
  match row with
  | None => None
  | Some row =>
      let column_names := map fst cur.(description) in
      Some (dict_zip column_names row)
  end.

(** [rows_to_dict_list(cursor, rows)]: the rows of [fetchall] are tuples. *)
Definition rows_to_dict_list (cur : cursor) (rows : list (list A))
  : list (gmap string A) :=
  match rows with
  | [] => []
  | _ => omap (fun row => row_to_dict cur (Some row)) rows
  end.

End Rows.

(* ===================================================================== *)
(** ** main.py: the product operations *)
(* ===================================================================== *)

(** The exceptions [handle_db_exception] tells apart, each with its text
    [str(e)]: the two classes of psycopg2 it names, and any other. *)
Inductive db_exception :=
| IntegrityError (text : string)
| OperationalError (text : string)
| OtherException (text : string).

(** [handle_db_exception(e, operation)]: it always raises; the result is
    the exception it raises. *)
Definition handle_db_exception (e : db_exception) (operation : string) : exn :=
  match e with
  | IntegrityError text =>
      if contains "unique" (lower text) || contains "duplicate" (lower text)
      then HTTPException 409 "Ya existe un producto con ese nombre" []
      else HTTPException 400 ("Error de integridad: " ++ text) []
  | OperationalError text =>
      HTTPException 503
        "Error de conexión con la base de datos. Intente más tarde." []
  | OtherException text =>
      HTTPException 500 ("Error interno: " ++ text) []
  end.

(** The product side of the store: the table [productos] with the sequence
    of its [id] column, and the keys of the tables [proveedores] and
    [impuestos], each of which may not exist. *)
Record Catalogo := {
  productos : list Producto;
  productos_id_seq : Z;
  proveedores : option (list Z);
  impuestos : option (list Z)
}.

(** A value in a row of a result. *)
Inductive cell :=
| CNull
| CInt (n : Z)
| CText (s : string)
| CDate (d : Z).

(** The value of a product under a column of [productos]; a column that
    is no field of the model is null here. *)
Definition cell_of (p : Producto) (column : string) : cell :=
  if String.eqb column "id" then CInt p.(p_id)
  else if String.eqb column "nombre" then CText p.(p_nombre)
  else if String.eqb column "descripcion" then CText p.(p_descripcion)
  else if String.eqb column "estado" then CText p.(p_estado)
  else if String.eqb column "fecha_entrada" then CDate p.(p_fecha_entrada)
  else if String.eqb column "nivel_minimo_stock"
       then CInt p.(p_nivel_minimo_stock)
  else if String.eqb column "proveedor_id" then CInt p.(p_proveedor_id)
  else if String.eqb column "impuesto_id" then CInt p.(p_impuesto_id)
  else CNull.

(** The tuple a cursor returns for a product: its values in the order of
    the columns of the result. *)
Definition tuple_of (cur : cursor) (p : Producto) : list cell :=
  map (fun column => cell_of p column.1) cur.(description).

Definition as_int (c : cell) : option Z :=
  match c with CInt n => Some n | _ => None end.
Definition as_text (c : cell) : option string :=
  match c with CText s => Some s | _ => None end.
Definition as_date (c : cell) : option Z :=
  match c with CDate d => Some d | _ => None end.

(** [Producto] built from a dictionary [d] on values of the declared types: the eight fields are
    read by name, keys that are no field are ignored, and a field that is
    missing or holds a value of another type is refused ([None]). *)
Definition Producto_of_dict (d : gmap string cell) : option Producto :=
  i ← d !! "id" ≫= as_int;
  n ← d !! "nombre" ≫= as_text;
  de ← d !! "descripcion" ≫= as_text;
  e ← d !! "estado" ≫= as_text;
  f ← d !! "fecha_entrada" ≫= as_date;
  s ← d !! "nivel_minimo_stock" ≫= as_int;
  pr ← d !! "proveedor_id" ≫= as_int;
  im ← d !! "impuesto_id" ≫= as_int;
  Some {| p_id := i; p_nombre := n; p_descripcion := de; p_estado := e;
          p_fecha_entrada := f; p_nivel_minimo_stock := s;
          p_proveedor_id := pr; p_impuesto_id := im |}.

(** [Query(0, ge=0)] on [skip] and [Query(10, ge=1, le=100)] on [limit]. *)
Definition pagination_errors (skip limit : Z) : list string :=
  (if (skip <? 0)%Z then ["skip"] else [])
  ++ (if ((limit <? 1) || (100 <? limit))%Z then ["limit"] else []).

Definition not_found_producto : exn :=
  HTTPException 404 "Producto no encontrado" [].

Section Products.

(** What the store does and is not in the source: the columns of
    [SELECT * FROM productos] in the order of the table, the operator
    [ILIKE], and the text of the error when a [Producto] cannot be built from a dictionary. *)
Variable productos_cursor : cursor.
Variable ILIKE : string -> string -> bool.
Variable str_ValidationError : gmap string cell -> string.

(** [validar_proveedor(conn, proveedor_id)]. *)
Definition validar_proveedor (db : Catalogo) (proveedor_id : Z)
  : Outcome unit :=
  match db.(proveedores) with
  | Some ids =>
      if existsb (Z.eqb proveedor_id) ids then Return tt
      else Raise (HTTPException 404
                    ("Proveedor con ID " ++ str_of_int proveedor_id
                     ++ " no existe") [])
  | None => Return tt
  end.

(** [validar_impuesto(conn, impuesto_id)]. *)
Definition validar_impuesto (db : Catalogo) (impuesto_id : Z)
  : Outcome unit :=
  match db.(impuestos) with
  | Some ids =>
      if existsb (Z.eqb impuesto_id) ids then Return tt
      else Raise (HTTPException 404
                    ("Impuesto con ID " ++ str_of_int impuesto_id
                     ++ " no existe") [])
  | None => Return tt
  end.

Definition Producto_of_create (producto_id : Z) (producto : ProductoCreate)
  : Producto :=
  {| p_id := producto_id;
     p_nombre := producto.(nombre);
     p_descripcion := producto.(descripcion);
     p_estado := producto.(estado);
     p_fecha_entrada := producto.(fecha_entrada);
     p_nivel_minimo_stock := producto.(nivel_minimo_stock);
     p_proveedor_id := producto.(proveedor_id);
     p_impuesto_id := producto.(impuesto_id) |}.

(** The body of [POST /productos/], on a store that answers every query.
    Every exception is raised before the insertion, so the rollback of
    the handler has nothing to undo. *)
Definition crear_producto (producto : ProductoCreate) (current_user : Usuario)
    (db : Catalogo) : Outcome Producto * Catalogo :=
  match validar_proveedor db producto.(proveedor_id) with
  | Raise e => (Raise e, db)
  | Return _ =>
  match validar_impuesto db producto.(impuesto_id) with
  | Raise e => (Raise e, db)
  | Return _ =>
      if existsb (fun row => String.eqb row.(p_nombre) producto.(nombre))
                 db.(productos)
      then (Raise (HTTPException 409 "Ya existe un producto con ese nombre" []),
            db)
      else
        let producto_id := db.(productos_id_seq) in
        let row := Producto_of_create producto_id producto in
        (Return row,
         {| productos := db.(productos) ++ [row];
            productos_id_seq := producto_id + 1;
            proveedores := db.(proveedores);
            impuestos := db.(impuestos) |})
  end end.

(** The [Producto] built from [producto_dict] inside the [try] of a handler:
    its error is
    no [HTTPException], so it goes to [handle_db_exception]. *)
Definition build_Producto (d : gmap string cell) (operation : string)
  : Outcome Producto :=
  match Producto_of_dict d with
  | Some p => Return p
  | None =>
      Raise (handle_db_exception (OtherException (str_ValidationError d))
                                 operation)
  end.

(** [[Producto] built from [p] for p in productos]: the first dictionary
    that is refused ends the comprehension. *)
Fixpoint build_Productos (productos : list (gmap string cell))
    (operation : string) : Outcome (list Producto) :=
  match productos with
  | [] => Return []
  | p :: rest =>
      let* producto := build_Producto p operation in
      let* others := build_Productos rest operation in
      Return (producto :: others)
  end.

(** The body of [GET /productos/{producto_id}].  An empty tuple is false,
    like no row; the log line reads [producto_dict['nombre']], which is a
    [KeyError] when the result has no such column. *)
Definition obtener_producto (producto_id : Z) (current_user : Usuario)
    (db : Catalogo) : Outcome Producto :=
  let row :=
    tuple_of productos_cursor
      <$> List.find (fun r => Z.eqb r.(p_id) producto_id) db.(productos) in
  match row with
  | Some (c :: cs) =>
      match row_to_dict productos_cursor row with
      | Some producto_dict =>
          match producto_dict !! "nombre" with
          | Some _ => build_Producto producto_dict "obtener_producto"
          | None =>
              Raise (handle_db_exception (OtherException "'nombre'")
                                         "obtener_producto")
          end
      | None =>
          Raise (handle_db_exception
                   (OtherException "'NoneType' object is not subscriptable")
                   "obtener_producto")
      end
  | _ => Raise not_found_producto
  end.

(** Truth value of an optional [str] and of an optional [int]. *)
Definition str_bool (s : option string) : bool :=
  match s with
  | Some (String _ _) => true
  | _ => false
  end.

Definition int_bool (n : option Z) : bool :=
  match n with
  | Some n => negb (Z.eqb n 0)
  | None => false
  end.

(** The conditions the handler appends to [WHERE 1=1], on one row. *)
Definition row_selected (estado : option string) (proveedor_id : option Z)
    (search : option string) (row : Producto) : bool :=
  (if str_bool estado
   then String.eqb row.(p_estado) (lower (default "" estado)) else true)
  && (if int_bool proveedor_id
      then Z.eqb row.(p_proveedor_id) (default 0 proveedor_id) else true)
  && (if str_bool search
      then let search_pattern := "%" ++ default "" search ++ "%" in
           ILIKE row.(p_nombre) search_pattern
           || ILIKE row.(p_descripcion) search_pattern
      else true).

(** [ORDER BY id]. *)
Definition by_id (a b : Producto) : Prop := (a.(p_id) <= b.(p_id))%Z.

#[local] Instance by_id_dec : forall a b, Decision (by_id a b).
Proof. intros a b. unfold by_id. apply _. Defined.

(** The rows of the query of [GET /productos/]:
    [WHERE ... ORDER BY id LIMIT limit OFFSET skip]. *)
Definition productos_page (skip limit : Z) (estado : option string)
    (proveedor_id : option Z) (search : option string) (db : Catalogo)
  : list Producto :=
  take (Z.to_nat limit)
    (drop (Z.to_nat skip)
       (merge_sort by_id
          (filter (fun row => row_selected estado proveedor_id search row = true)
                  db.(productos)))).

(** The body of [GET /productos/], after the validation of [skip] and
    [limit]. *)
Definition obtener_productos (current_user : Usuario) (skip limit : Z)
    (estado : option string) (proveedor_id : option Z) (search : option string)
    (db : Catalogo) : Outcome (list Producto) :=
  let rows :=
    map (tuple_of productos_cursor)
        (productos_page skip limit estado proveedor_id search db) in
  let productos := rows_to_dict_list productos_cursor rows in
  build_Productos productos "obtener_productos".

(** [GET /productos/] as the framework serves it: [skip] and [limit] are
    validated first. *)
Definition obtener_productos_endpoint (current_user : Usuario)
    (skip limit : Z) (estado : option string) (proveedor_id : option Z)
    (search : option string) (db : Catalogo) : Outcome (list Producto) :=
  match pagination_errors skip limit with
  | [] => obtener_productos current_user skip limit estado proveedor_id
                            search db
  | field :: _ => Raise (RequestValidationError field)
  end.

(** [UPDATE productos SET ... WHERE id = %s]. *)
Definition update_row (producto_id : Z) (producto : ProductoCreate)
    (row : Producto) : Producto :=
  if Z.eqb row.(p_id) producto_id
  then Producto_of_create producto_id producto
  else row.

(** The body of [PUT /productos/{producto_id}].  The only exception after
    the update comes after the commit. *)
Definition actualizar_producto (producto_id : Z) (producto : ProductoCreate)
    (current_user : Usuario) (db : Catalogo) : Outcome Producto * Catalogo :=
  match List.find (fun r => Z.eqb r.(p_id) producto_id) db.(productos) with
  | None => (Raise not_found_producto, db)
  | Some producto_existente =>
  match validar_proveedor db producto.(proveedor_id) with
  | Raise e => (Raise e, db)
  | Return _ =>
  match validar_impuesto db producto.(impuesto_id) with
  | Raise e => (Raise e, db)
  | Return _ =>
      let nombre_anterior := producto_existente.(p_nombre) in
      if negb (String.eqb producto.(nombre) nombre_anterior)
         && existsb (fun r => String.eqb r.(p_nombre) producto.(nombre)
                              && negb (Z.eqb r.(p_id) producto_id))
                    db.(productos)
      then (Raise (HTTPException 409 "Ya existe otro producto con ese nombre" []),
            db)
      else
        let rowcount :=
          length (filter (fun r => r.(p_id) = producto_id) db.(productos)) in
        let db' :=
          {| productos := map (update_row producto_id producto) db.(productos);
             productos_id_seq := db.(productos_id_seq);
             proveedores := db.(proveedores);
             impuestos := db.(impuestos) |} in
        if (rowcount =? 0)%nat then (Raise not_found_producto, db')
        else (Return (Producto_of_create producto_id producto), db')
  end end end.

(** The body of [DELETE /productos/{producto_id}]: the deletion is
    committed before the row count is looked at. *)
Definition eliminar_producto (producto_id : Z) (current_user : Usuario)
    (db : Catalogo) : Outcome (gmap string string) * Catalogo :=
  let rowcount :=
    length (filter (fun r => r.(p_id) = producto_id) db.(productos)) in
  let db' :=
    {| productos := filter (fun r => r.(p_id) <> producto_id) db.(productos);
       productos_id_seq := db.(productos_id_seq);
       proveedores := db.(proveedores);
       impuestos := db.(impuestos) |} in
  if (rowcount =? 0)%nat then (Raise not_found_producto, db')
  else (Return {["mensaje" := "Producto eliminado correctamente"]}, db').

End Products.

(* ===================================================================== *)
(** ** What the tables are expected to satisfy *)
(* ===================================================================== *)

(** The table [usuarios] as its constraints want it: no username twice, no
    email twice, and every identifier below the next value of the
    sequence. *)
Definition usuarios_ok (db : Database) : Prop :=
  NoDup (map username db.(usuarios))
  /\ NoDup (map email db.(usuarios))
  /\ Forall (fun row => row.(id) < db.(usuarios_id_seq)) db.(usuarios).

(** The table [productos] as the handlers keep it: no identifier twice, no
    name twice, and every identifier below the next value of the
    sequence. *)
Definition productos_ok (db : Catalogo) : Prop :=
  NoDup (map p_id db.(productos))
  /\ NoDup (map p_nombre db.(productos))
  /\ Forall (fun row => row.(p_id) < db.(productos_id_seq)) db.(productos).

(** The result of [SELECT * FROM productos] has the eight columns the
    model reads, each once. *)
Definition Producto_fields : list string :=
  ["id"; "nombre"; "descripcion"; "estado"; "fecha_entrada";
   "nivel_minimo_stock"; "proveedor_id"; "impuesto_id"].

Definition productos_columns_ok (cur : cursor) : Prop :=
  NoDup (map fst cur.(description))
  /\ Forall (fun field => In field (map fst cur.(description))) Producto_fields.

(** The row [register] inserts. *)
Definition registered_row `{pwd_context : CryptContext} (s : salt)
    (usuario : UsuarioCreate) (db : Database) : Usuario :=
  {| id := db.(usuarios_id_seq);
     username := usuario.(uc_username);
     email := usuario.(uc_email);
     hashed_password := get_password_hash s usuario.(uc_password);
     is_active := true |}.

(* ===================================================================== *)
(** ** A small catalogue *)
(* ===================================================================== *)

Module SampleCatalogo.

(** The columns of the result in an order that is not the order of the
    model, with one column the model does not have. *)
Definition productos_cursor : cursor :=
  {| description :=
       [("nombre", 1043); ("id", 23); ("creado_en", 1114);
        ("estado", 1043); ("descripcion", 1043); ("impuesto_id", 23);
        ("proveedor_id", 23); ("nivel_minimo_stock", 23);
        ("fecha_entrada", 1082)] |}.

(** [ILIKE] on patterns without wildcard other than the two ends: the
    text between the percent signs occurs in the value, letter case
    apart. *)
Definition ILIKE (text pattern : string) : bool :=
  contains (lower (substring 1 (String.length pattern - 2) pattern))
           (lower text).

Definition str_ValidationError (d : gmap string cell) : string :=
  "validation error for Producto".

Definition teclado : ProductoCreate :=
  {| nombre := "Teclado"; descripcion := "Teclado mecanico";
     estado := "activo"; fecha_entrada := 739000; nivel_minimo_stock := 5;
     proveedor_id := 1; impuesto_id := 2 |}.

Definition raton : Producto :=
  {| p_id := 1; p_nombre := "Raton"; p_descripcion := "Raton optico";
     p_estado := "activo"; p_fecha_entrada := 738000;
     p_nivel_minimo_stock := 3; p_proveedor_id := 1; p_impuesto_id := 2 |}.

Definition pantalla : Producto :=
  {| p_id := 2; p_nombre := "Pantalla"; p_descripcion := "Pantalla 24";
     p_estado := "descontinuado"; p_fecha_entrada := 738500;
     p_nivel_minimo_stock := 1; p_proveedor_id := 2; p_impuesto_id := 2 |}.

Definition catalogo : Catalogo :=
  {| productos := [pantalla; raton]; productos_id_seq := 3;
     proveedores := Some [1; 2]; impuestos := None |}.

Definition carol : UsuarioCreate :=
  {| uc_username := "carol"; uc_email := "carol@example.org";
     uc_password := "secret3" |}.

Definition store : Database :=
  {| usuarios := [Sample.alice]; usuarios_id_seq := 2; journal := [] |}.

Definition login_of_alice : LoginRequest :=
  {| lr_username := "alice"; lr_password := "secret1" |}.

End SampleCatalogo.


(* ===================================================================== *)
(** ** The credential store *)
(* ===================================================================== *)

Lemma username_matches_spec (param : value) (row : Usuario) :
  username_matches param row = true <-> param = VStr row.(username).
Proof.
  unfold username_matches. rewrite bool_decide_eq_true. split; congruence.
Qed.

(** A row the lookup returns is a row of the table, and it carries the
    username that was asked for. *)
Lemma get_user_by_username_Some usuarios param user :
  get_user_by_username usuarios param = Some user ->
  In user usuarios /\ param = VStr user.(username).
Proof.
  unfold get_user_by_username. intros Hfind.
  apply find_some in Hfind as [Hin Hmatch].
  split; [assumption | now apply username_matches_spec].
Qed.

(** The lookup finds nothing exactly when no row carries the username. *)
Lemma get_user_by_username_None usuarios param :
  get_user_by_username usuarios param = None <->
  forall row, In row usuarios -> param <> VStr row.(username).
Proof.
  unfold get_user_by_username. split.
  - intros Hnone row Hin Heq.
    pose proof (find_none _ _ Hnone row Hin) as Hno.
    apply username_matches_spec in Heq. congruence.
  - intros Hall. induction usuarios as [|row rest IH]; [reflexivity|].
    simpl. destruct (username_matches param row) eqn:Hm.
    + apply username_matches_spec in Hm. exfalso.
      apply (Hall row); [now left | assumption].
    + apply IH. intros r Hr. apply Hall. now right.
Qed.

(** [None], which is what [payload.get("sub")] gives for a payload without
    subject, names no user. *)
Lemma get_user_by_username_VNone usuarios :
  get_user_by_username usuarios VNone = None.
Proof. apply get_user_by_username_None. intros row _. discriminate. Qed.

(* ===================================================================== *)
(** ** The authenticator *)
(* ===================================================================== *)

Section Authenticator.
Context `{pwd_context : CryptContext}.

(** The two password functions of the source are the calls of the
    password context and nothing more. *)
Lemma verify_password_is_the_context (plain_password hashed_password : string) :
  verify_password plain_password hashed_password
  = pwd_context_verify plain_password hashed_password.
Proof. reflexivity. Qed.

Lemma get_password_hash_is_the_context (s : salt) (password : string) :
  get_password_hash s password = pwd_context_hash s password.
Proof. reflexivity. Qed.

Lemma authenticate_user_Some usuarios username password user :
  authenticate_user usuarios username password = Some user <->
  get_user_by_username usuarios (VStr username) = Some user
  /\ verify_password password user.(hashed_password) = true
  /\ user.(is_active) = true.
Proof.
  unfold authenticate_user.
  destruct (get_user_by_username usuarios (VStr username)) as [found|] eqn:Hlookup.
  - destruct (verify_password password found.(hashed_password)) eqn:Hpw;
      destruct found.(is_active) eqn:Hact; simpl; split.
    all: try (intros [= <-]; auto).
    all: try (intros ([= <-] & Hv & Ha); congruence).
    all: try discriminate.
  - split; [discriminate | intros ([=] & _)].
Qed.


End Authenticator.

(* ===================================================================== *)
(** ** The authorization middleware *)
(* ===================================================================== *)

Section Middleware.
Context `{jose : Jose} `{security : !SecurityScheme}.
Variable SECRET_KEY : string.

(** [verify_token] returns exactly the payloads [jwt.decode] returns. *)
Lemma verify_token_Return tok utcnow payload :
  verify_token SECRET_KEY tok utcnow = Return payload <->
  jwt_decode tok SECRET_KEY [ALGORITHM] utcnow = inr payload.
Proof.
  unfold verify_token.
  destruct (jwt_decode tok SECRET_KEY [ALGORITHM] utcnow) as [why|claims];
    split; intros Heq; try discriminate; congruence.
Qed.

(** Every [JWTError] becomes the same exception: the caller cannot tell an
    expired token from an invalid one. *)
Lemma verify_token_Raise tok utcnow why :
  jwt_decode tok SECRET_KEY [ALGORITHM] utcnow = inl why ->
  verify_token SECRET_KEY tok utcnow = Raise token_rejected.
Proof. unfold verify_token. now intros ->. Qed.

Lemma verify_token_outcomes tok utcnow :
  verify_token SECRET_KEY tok utcnow = Raise token_rejected
  \/ exists payload, verify_token SECRET_KEY tok utcnow = Return payload.
Proof.
  unfold verify_token.
  destruct (jwt_decode tok SECRET_KEY [ALGORITHM] utcnow); eauto.
Qed.

(** The resolution of the two dependencies, check by check. *)
Lemma get_current_user_unfold usuarios token_data utcnow :
  get_current_user SECRET_KEY usuarios token_data utcnow =
  match jwt_decode token_data.(credentials) SECRET_KEY [ALGORITHM] utcnow with
  | inl _ => Raise token_rejected
  | inr payload =>
      if bool_decide (dict_get payload "sub" = VNone) then Raise subject_missing
      else match get_user_by_username usuarios (dict_get payload "sub") with
           | None => Raise user_not_found
           | Some user => Return user
           end
  end.
Proof.
  unfold get_current_user, verify_token.
  now destruct (jwt_decode _ SECRET_KEY [ALGORITHM] utcnow).
Qed.

Lemma protected_Raise {W R} (handler : Usuario -> W -> Outcome R * W)
    usuarios request utcnow w e :
  Depends_get_current_active_user SECRET_KEY usuarios request utcnow = Raise e ->
  protected SECRET_KEY handler usuarios request utcnow w = (Raise e, w).
Proof. unfold protected. now intros ->. Qed.

Lemma protected_Return {W R} (handler : Usuario -> W -> Outcome R * W)
    usuarios request utcnow w user :
  Depends_get_current_active_user SECRET_KEY usuarios request utcnow = Return user ->
  protected SECRET_KEY handler usuarios request utcnow w = handler user w.
Proof. unfold protected. now intros ->. Qed.

(** C2.  The middleware checks in this order and stops at the first check
    that fails, with that check's exception: (1) the bearer scheme
    extracts the token, and its exception is the request's; (2) the token
    is validated, and any [JWTError] is the rejection of [verify_token];
    (3) the payload has a subject, or else [subject_missing]; (4) the
    subject names a stored user, or else [user_not_found]; (5) that user
    is active, or else [inactive_user]; (6) the user is yielded only when
    the five checks pass.  When the middleware raises, the answer of a
    protected operation is that exception and its state is unchanged: the
    body of the handler is not run. *)
Theorem authorization_checks_in_order (usuarios : list Usuario)
    (request : Request) (utcnow : Z) :
  let authorize :=
    Depends_get_current_active_user SECRET_KEY usuarios request utcnow in
  (forall e, oauth2_scheme request = Raise e -> authorize = Raise e)
  /\ (forall token_data, oauth2_scheme request = Return token_data ->
      let decoded :=
        jwt_decode token_data.(credentials) SECRET_KEY [ALGORITHM] utcnow in
      (forall why, decoded = inl why -> authorize = Raise token_rejected)
      /\ (forall payload, decoded = inr payload ->
          let subject := dict_get payload "sub" in
          (subject = VNone -> authorize = Raise subject_missing)
          /\ (subject <> VNone ->
              (get_user_by_username usuarios subject = None ->
               authorize = Raise user_not_found)
              /\ (forall user,
                  get_user_by_username usuarios subject = Some user ->
                  (user.(is_active) = false -> authorize = Raise inactive_user)
                  /\ (user.(is_active) = true -> authorize = Return user)))))
  /\ (forall user, authorize = Return user ->
      exists token_data payload,
        oauth2_scheme request = Return token_data
        /\ jwt_decode token_data.(credentials) SECRET_KEY [ALGORITHM] utcnow
           = inr payload
        /\ dict_get payload "sub" <> VNone
        /\ get_user_by_username usuarios (dict_get payload "sub") = Some user
        /\ user.(is_active) = true)
  /\ (forall (W R : Type) (handler : Usuario -> W -> Outcome R * W) (w : W),
      (forall e, authorize = Raise e ->
         protected SECRET_KEY handler usuarios request utcnow w = (Raise e, w))
      /\ (forall user, authorize = Return user ->
         protected SECRET_KEY handler usuarios request utcnow w
         = handler user w)).
Proof.
  intros authorize. subst authorize.
  unfold Depends_get_current_active_user, Depends_get_current_user.
  split; [|split; [|split]].
  - intros e ->. reflexivity.
  - intros token_data ->. cbn [bind].
    rewrite get_current_user_unfold.
    split.
    + intros why ->. reflexivity.
    + intros payload ->. cbn zeta. split.
      * intros ->. reflexivity.
      * intros Hsub. rewrite bool_decide_eq_false_2 by assumption.
        split.
        -- intros ->. reflexivity.
        -- intros user ->. cbn [bind]. unfold get_current_active_user.
           split; intros ->; reflexivity.
  - intros user Hyield.
    destruct (oauth2_scheme request) as [token_data|e] eqn:Hscheme;
      [|discriminate].
    cbn [bind] in Hyield. rewrite get_current_user_unfold in Hyield.
    destruct (jwt_decode _ SECRET_KEY [ALGORITHM] utcnow) as [why|payload]
      eqn:Hdecode; [discriminate|].
    destruct (bool_decide (dict_get payload "sub" = VNone)) eqn:Hsub;
      [discriminate|].
    apply bool_decide_eq_false in Hsub.
    destruct (get_user_by_username usuarios (dict_get payload "sub"))
      as [found|] eqn:Hlookup; [|discriminate].
    cbn [bind] in Hyield. unfold get_current_active_user in Hyield.
    destruct found.(is_active) eqn:Hactive; [|discriminate].
    injection Hyield as <-.
    exists token_data, payload. auto.
  - intros W R handler w. split.
    + intros e. apply protected_Raise.
    + intros user. apply protected_Return.
Qed.

(** The first stage resolves the user a valid token names, active or not. *)
Lemma first_stage_resolves usuarios request token_data payload user utcnow :
  oauth2_scheme request = Return token_data ->
  verify_token SECRET_KEY token_data.(credentials) utcnow = Return payload ->
  get_user_by_username usuarios (dict_get payload "sub") = Some user ->
  Depends_get_current_user SECRET_KEY usuarios request utcnow = Return user.
Proof.
  intros Hscheme Hvalid Hlookup.
  assert (Hsub : dict_get payload "sub" <> VNone).
  { intros Hnone. rewrite Hnone, get_user_by_username_VNone in Hlookup.
    discriminate. }
  unfold Depends_get_current_user. rewrite Hscheme. cbn [bind].
  unfold get_current_user. rewrite Hvalid. cbn [bind].
  rewrite bool_decide_eq_false_2 by assumption. now rewrite Hlookup.
Qed.

(** The second stage looks at the active flag of the resolved user only. *)
Lemma second_stage_checks_flag usuarios request user utcnow :
  Depends_get_current_user SECRET_KEY usuarios request utcnow = Return user ->
  Depends_get_current_active_user SECRET_KEY usuarios request utcnow
  = if user.(is_active) then Return user else Raise inactive_user.
Proof.
  intros Hfirst. unfold Depends_get_current_active_user. rewrite Hfirst.
  cbn [bind]. unfold get_current_active_user. now destruct user.(is_active).
Qed.

(** C6.  A token that still passes validation, presented for a user whose
    row now says inactive, is accepted by the first stage (the user is
    resolved) and refused by the second with [inactive_user]; a protected
    operation answers with that exception and does nothing. *)
Theorem deactivated_user_is_refused (usuarios : list Usuario)
    (request : Request) (token_data : HTTPAuthorizationCredentials)
    (payload : dict) (user : Usuario) (utcnow : Z) :
  oauth2_scheme request = Return token_data ->
  verify_token SECRET_KEY token_data.(credentials) utcnow = Return payload ->
  get_user_by_username usuarios (dict_get payload "sub") = Some user ->
  user.(is_active) = false ->
  Depends_get_current_user SECRET_KEY usuarios request utcnow = Return user
  /\ Depends_get_current_active_user SECRET_KEY usuarios request utcnow
     = Raise inactive_user
  /\ forall (W R : Type) (handler : Usuario -> W -> Outcome R * W) (w : W),
       protected SECRET_KEY handler usuarios request utcnow w
       = (Raise inactive_user, w).
Proof.
  intros Hscheme Hvalid Hlookup Hinactive.
  pose proof (first_stage_resolves usuarios request token_data payload user
                utcnow Hscheme Hvalid Hlookup) as Hfirst.
  pose proof (second_stage_checks_flag usuarios request user utcnow Hfirst)
    as Hsecond.
  rewrite Hinactive in Hsecond.
  split; [assumption|]. split; [assumption|].
  intros W R handler w. now apply protected_Raise.
Qed.

End Middleware.

(** The bearer scheme yields the token of a header [Bearer <token>],
    whatever the letter case of the scheme word, and fails with
    [MissingCredential] on everything else: no header, another scheme
    word, no token. *)
Lemma bearer_extract_cases `{jose : Jose} (r : Bearer.request) :
  (exists word tok,
      r.(Bearer.authorization) = Some (word, Some tok)
      /\ lower word = "bearer"
      /\ Bearer.extract r = Return {| scheme := word; credentials := tok |})
  \/ Bearer.extract r = Raise MissingCredential.
Proof.
  unfold Bearer.extract.
  destruct r.(Bearer.authorization) as [[word [tok|]]|]; auto.
  destruct (String.eqb_spec (lower word) "bearer") as [Hword|]; [|auto].
  left. exists word, tok. auto.
Qed.

(* ===================================================================== *)
(** ** Issuing and validating *)
(* ===================================================================== *)

(** Two claim sets that agree once ["exp"] is removed agree on every other
    claim. *)
Lemma claims_agree_off_exp (payload data : dict) (key : string) :
  delete "exp" payload = delete "exp" data ->
  key <> "exp" ->
  payload !! key = data !! key.
Proof.
  intros Hagree Hkey.
  rewrite <- (lookup_delete_ne payload "exp" key) by congruence.
  rewrite <- (lookup_delete_ne data "exp" key) by congruence.
  now rewrite Hagree.
Qed.

Lemma token_lifetime_of_default (minutes : Z) :
  token_lifetime minutes (Some (timedelta_minutes minutes))
  = timedelta_minutes minutes.
Proof.
  unfold token_lifetime. now destruct (timedelta_bool (timedelta_minutes minutes)).
Qed.

(** A zero [timedelta] is false: the default lifetime is used for it. *)
Lemma token_lifetime_zero (minutes : Z) :
  token_lifetime minutes (Some 0) = timedelta_minutes minutes.
Proof. reflexivity. Qed.

Lemma token_lifetime_nonzero (minutes d : Z) :
  d <> 0 -> token_lifetime minutes (Some d) = d.
Proof.
  intros Hd. unfold token_lifetime, timedelta_bool.
  destruct (Z.eqb_spec d 0); [contradiction | reflexivity].
Qed.

Section RoundTrip.
Context `{jose : Jose}.
Variable SECRET_KEY : string.
Variable ACCESS_TOKEN_EXPIRE_MINUTES : Z.

(** What the service relies on the JWT library for: a claim set that
    carries an expiration instant, encoded under a key and an algorithm, is
    decoded under the same key and algorithm before that instant, and the
    decoded payload is the claim set up to the form of the expiration
    claim. *)
Hypothesis decode_encode :
  forall (claims : dict) (key alg : string) (exp now : Z),
    claims !! "exp" = Some (VDatetime exp) ->
    now < exp ->
    exists payload,
      jwt_decode (jwt_encode claims key alg) key [alg] now = inr payload
      /\ delete "exp" payload = delete "exp" claims.

Lemma verify_created_token data expires_delta issued_at utcnow :
  utcnow < issued_at + token_lifetime ACCESS_TOKEN_EXPIRE_MINUTES expires_delta ->
  exists payload,
    verify_token SECRET_KEY
      (create_access_token SECRET_KEY ACCESS_TOKEN_EXPIRE_MINUTES
                           data expires_delta issued_at) utcnow
    = Return payload
    /\ delete "exp" payload = delete "exp" data.
Proof.
  intros Hbefore. unfold create_access_token. cbn zeta.
  set (expire := issued_at + token_lifetime ACCESS_TOKEN_EXPIRE_MINUTES expires_delta) in *.
  destruct (decode_encode (<["exp" := VDatetime expire]> data)
              SECRET_KEY ALGORITHM expire utcnow)
    as (payload & Hdecode & Hagree).
  - apply lookup_insert_eq.
  - assumption.
  - exists payload. split.
    + now apply verify_token_Return.
    + rewrite Hagree. apply delete_insert_eq.
Qed.

(** C3.  A token made by [create_access_token] from a claim set [data] and
    validated by [verify_token] before the expiration instant it was given
    (the instant of issue plus the lifetime) yields a payload that is
    [data] up to the claim ["exp"]: with ["exp"] removed on both sides the
    two are equal, so every other claim is recovered with its value and no
    claim is added. *)
Theorem create_then_verify_round_trip (data : dict) (expires_delta : option Z)
    (issued_at utcnow : Z) :
  utcnow < issued_at + token_lifetime ACCESS_TOKEN_EXPIRE_MINUTES expires_delta ->
  exists payload,
    verify_token SECRET_KEY
      (create_access_token SECRET_KEY ACCESS_TOKEN_EXPIRE_MINUTES
                           data expires_delta issued_at) utcnow
    = Return payload
    /\ delete "exp" payload = delete "exp" data
    /\ forall key, key <> "exp" -> payload !! key = data !! key.
Proof.
  intros Hbefore.
  destruct (verify_created_token data expires_delta issued_at utcnow Hbefore)
    as (payload & Hvalid & Hagree).
  exists payload. split; [assumption|]. split; [assumption|].
  intros key Hkey. now apply claims_agree_off_exp.
Qed.

End RoundTrip.

(* ===================================================================== *)
(** ** The token codec *)
(* ===================================================================== *)

Section CodecProperties.
Variable mac : string -> string -> dict -> string.

Local Abbreviation codec := (TokenCodec.jose mac).

Lemma expiration_of_datetime (claims : dict) (exp : Z) :
  claims !! "exp" = Some (VDatetime exp) ->
  TokenCodec.expiration claims = Some exp.
Proof. unfold TokenCodec.expiration. now intros ->. Qed.

(** A token of the codec, validated under the key and the algorithm it was
    issued with, passes the algorithm and the signature checks: only the
    clock decides. *)
Lemma validate_issue (claims : dict) (key alg : string) (now : Z) :
  TokenCodec.validate mac (TokenCodec.issue mac claims key alg) key [alg] now
  = match TokenCodec.expiration claims with
    | Some exp => if (exp <? now)%Z then inl ExpiredToken else inr claims
    | None => inr claims
    end.
Proof.
  unfold TokenCodec.validate, TokenCodec.issue.
  rewrite bool_decide_eq_true_2 by (apply list_elem_of_singleton; reflexivity).
  now rewrite String.eqb_refl.
Qed.

Lemma validate_issue_until (claims : dict) (key alg : string) (exp now : Z) :
  TokenCodec.expiration claims = Some exp ->
  now <= exp ->
  TokenCodec.validate mac (TokenCodec.issue mac claims key alg) key [alg] now
  = inr claims.
Proof.
  intros Hexp Hbefore. rewrite validate_issue, Hexp.
  destruct (Z.ltb_spec exp now); [lia | reflexivity].
Qed.

(** The codec meets what [RoundTrip] asks of the JWT library. *)
Lemma codec_decode_encode :
  forall (claims : dict) (key alg : string) (exp now : Z),
    claims !! "exp" = Some (VDatetime exp) ->
    now < exp ->
    exists payload,
      jwt_decode (Jose := codec)
                 (jwt_encode claims key alg) key [alg] now = inr payload
      /\ delete "exp" payload = delete "exp" claims.
Proof.
  intros claims key alg exp now Hexp Hbefore. exists claims. split; [|reflexivity].
  cbn [jwt_decode jwt_encode TokenCodec.jose].
  apply validate_issue_until with exp; [|lia].
  now apply expiration_of_datetime.
Qed.

(** After its expiration instant a token is never accepted, whatever its
    signature. *)
Lemma validate_after_expiration (tok : TokenCodec.jws) (key : string)
    (algorithms : list string) (exp now : Z) :
  TokenCodec.token_expiration tok = Some exp ->
  exp < now ->
  exists why, TokenCodec.validate mac tok key algorithms now = inl why.
Proof.
  intros Hexp Hafter. destruct tok as [raw|alg claims signature];
    [discriminate|].
  cbn in Hexp. unfold TokenCodec.validate.
  destruct (negb (bool_decide (alg ∈ algorithms))); [eauto|].
  destruct (negb (signature =? mac key alg claims)%string); [eauto|].
  rewrite Hexp. destruct (Z.ltb_spec exp now); [eauto | lia].
Qed.

(** C4, as amended.  The token expires after its expiration instant, not
    at it.  (1) Whatever the token, once the clock is past the expiration
    instant the token carries, [verify_token] raises its rejection, the one
    exception it has for expired and invalid tokens alike; (2) for a token
    signed with the server key the library's reason is [ExpiredToken];
    (3) up to and including the expiration instant, a token signed with
    the server key validates and yields its claim set; (4) so for a token
    made by [create_access_token] the clock alone decides: rejected after
    the instant of issue plus the lifetime, accepted with the claim set it
    was made from until then.  [verify_token] is a function of the token
    and the clock. *)
Theorem expired_token_is_rejected (SECRET_KEY : string) :
  (forall (tok : TokenCodec.jws) (exp now : Z),
      TokenCodec.token_expiration tok = Some exp ->
      exp < now ->
      verify_token (jose := codec) SECRET_KEY tok now = Raise token_rejected)
  /\ (forall (claims : dict) (exp now : Z),
      TokenCodec.expiration claims = Some exp ->
      exp < now ->
      jwt_decode (Jose := codec) (TokenCodec.issue mac claims SECRET_KEY ALGORITHM)
                 SECRET_KEY [ALGORITHM] now = inl ExpiredToken)
  /\ (forall (claims : dict) (exp now : Z),
      TokenCodec.expiration claims = Some exp ->
      now <= exp ->
      verify_token (jose := codec) SECRET_KEY
        (TokenCodec.issue mac claims SECRET_KEY ALGORITHM) now
      = Return claims)
  /\ (forall (minutes : Z) (data : dict) (expires_delta : option Z)
             (issued_at now : Z),
      verify_token (jose := codec) SECRET_KEY
        (create_access_token (jose := codec) SECRET_KEY minutes data
                             expires_delta issued_at) now
      = if (issued_at + token_lifetime minutes expires_delta <? now)%Z
        then Raise token_rejected
        else Return (<["exp" := VDatetime (issued_at
                                  + token_lifetime minutes expires_delta)]>
                       data)).
Proof.
  split; [|split; [|split]].
  - intros tok exp now Hexp Hafter.
    destruct (validate_after_expiration tok SECRET_KEY [ALGORITHM]
                exp now Hexp Hafter) as [why Hwhy].
    now apply verify_token_Raise with why.
  - intros claims exp now Hexp Hafter.
    cbn [jwt_decode TokenCodec.jose]. rewrite validate_issue, Hexp.
    destruct (Z.ltb_spec exp now); [reflexivity | lia].
  - intros claims exp now Hexp Hbefore.
    apply verify_token_Return. cbn [jwt_decode TokenCodec.jose].
    now apply validate_issue_until with exp.
  - intros minutes data expires_delta issued_at now.
    unfold create_access_token. cbn zeta.
    set (expire := issued_at + token_lifetime minutes expires_delta).
    cbn [jwt_encode TokenCodec.jose].
    destruct (Z.ltb_spec expire now) as [Hafter|Hbefore].
    + apply verify_token_Raise with ExpiredToken.
      cbn [jwt_decode TokenCodec.jose]. rewrite validate_issue.
      rewrite (expiration_of_datetime _ expire) by apply lookup_insert_eq.
      destruct (Z.ltb_spec expire now); [reflexivity | lia].
    + apply verify_token_Return. cbn [jwt_decode TokenCodec.jose].
      apply validate_issue_until with expire; [|assumption].
      apply expiration_of_datetime, lookup_insert_eq.
Qed.




End CodecProperties.

(* ===================================================================== *)
(** ** The key of the signature *)
(* ===================================================================== *)






Section KeyRotation.
Variable H : string -> string.
Variable signing_input : string -> dict -> string.

Local Abbreviation mac := (HMAC.sign H signing_input).
Local Abbreviation codec := (TokenCodec.jose mac).




End KeyRotation.

(* ===================================================================== *)
(** ** The password context *)
(* ===================================================================== *)

Section HasherProperties.
Variable Salt : Type.
Variable kdf : Salt -> string -> string.
Variable salt_of : string -> option Salt.

Local Abbreviation hasher := (PasswordHasher.context Salt kdf salt_of).



(** On a string that is not a hash the call of the context raises,
    whatever the secret. *)
Lemma CryptContext_verify_raises (secret hashString : string) :
  salt_of hashString = None ->
  PasswordHasher.CryptContext_verify Salt kdf salt_of secret hashString
  = inl PasswordHasher.ValueError.
Proof.
  intros Hsalt. unfold PasswordHasher.CryptContext_verify. now rewrite Hsalt.
Qed.

(** The hash string embeds its salt. *)
Hypothesis salt_of_kdf :
  forall (s : Salt) (bytes : string), salt_of (kdf s bytes) = Some s.


End HasherProperties.

(** C7.  [verify_password] is the bare call
    [pwd_context.verify(plain_password, hashed_password)], with no handler
    around it: what the call raises leaves [verify_password].  On the
    sample context the call raises on a string that is not a hash, the
    empty string included, where the claim has [verify_password] return
    false; on a hash of another password it returns false. *)
Theorem verify_password_raises_on_a_string_that_is_no_hash :
  PasswordHasher.CryptContext_verify ascii Sample.kdf Sample.salt_of
    "secret1" "not-a-hash" = inl PasswordHasher.ValueError
  /\ PasswordHasher.CryptContext_verify ascii Sample.kdf Sample.salt_of
       "secret1" "" = inl PasswordHasher.ValueError
  /\ PasswordHasher.CryptContext_verify ascii Sample.kdf Sample.salt_of
       "secret1" (get_password_hash (pwd_context := Sample.pwd_context)
                    "s"%char "secret2") = inr false.
Proof. repeat split. Qed.

(* ===================================================================== *)
(** ** Registration *)
(* ===================================================================== *)

Section Registration.
Context `{pwd_context : CryptContext}.

Lemma UsuarioCreate_validate_short (username email password : string) :
  (String.length password < password_min_length)%nat ->
  UsuarioCreate_validate username email password
  = Raise (RequestValidationError "password").
Proof.
  intros Hshort. unfold UsuarioCreate_validate.
  destruct (Nat.ltb_spec (String.length password) password_min_length);
    [reflexivity | lia].
Qed.

Lemma UsuarioCreate_validate_long (username email password : string) :
  (password_min_length <= String.length password)%nat ->
  UsuarioCreate_validate username email password
  = Return {| uc_username := username; uc_email := email;
              uc_password := password |}.
Proof.
  intros Hlong. unfold UsuarioCreate_validate.
  destruct (Nat.ltb_spec (String.length password) password_min_length);
    [lia | reflexivity].
Qed.

(** Whatever [register] does, it starts with the lookup: a call of the
    body always shows in the journal. *)
Lemma register_is_journaled (s : salt) (usuario : UsuarioCreate)
    (db : Database) :
  (length db.(journal) < length (snd (register s usuario db)).(journal))%nat.
Proof.
  unfold register. cbn zeta.
  destruct (existsb _ _); cbn; lia.
Qed.

(** C9.  A registration request whose password has fewer than six
    characters is answered with the validation error of the request body,
    and the store is exactly what it was: its journal has no lookup, no
    hashing and no insertion, its table and its sequence are unchanged.
    A request with a longer password does reach the body of [register],
    which is journaled. *)
Theorem short_password_never_reaches_register (s : salt)
    (username email password : string) (db : Database) :
  (String.length password < 6)%nat ->
  register_endpoint s username email password db
  = (Raise (RequestValidationError "password"), db).
Proof.
  intros Hshort. unfold register_endpoint.
  rewrite UsuarioCreate_validate_short; [reflexivity|].
  unfold password_min_length. exact Hshort.
Qed.

Lemma long_password_reaches_register (s : salt)
    (username email password : string) (db : Database) :
  (6 <= String.length password)%nat ->
  register_endpoint s username email password db
  = register s {| uc_username := username; uc_email := email;
                  uc_password := password |} db.
Proof.
  intros Hlong. unfold register_endpoint.
  now rewrite UsuarioCreate_validate_long.
Qed.

End Registration.

(* ===================================================================== *)
(** ** The caller's dictionary *)
(* ===================================================================== *)

Lemma fresh_is_unallocated (h : heap) : h !! fresh (dom h) = None.
Proof. apply not_elem_of_dom. apply is_fresh. Qed.

Section Frame.
Context `{jose : Jose}.
Variable SECRET_KEY : string.
Variable ACCESS_TOKEN_EXPIRE_MINUTES : Z.

(** The run of [create_access_token_ref] on a heap where [data] holds the
    dictionary [d]: one object is allocated, the copy, and it is the only
    one written. *)
Lemma create_access_token_ref_run (h : heap) (data : loc) (d : dict)
    (expires_delta : option Z) (utcnow : Z) :
  h !! data = Some d ->
  let expire := utcnow + token_lifetime ACCESS_TOKEN_EXPIRE_MINUTES expires_delta in
  create_access_token_ref SECRET_KEY ACCESS_TOKEN_EXPIRE_MINUTES
                          data expires_delta utcnow h
  = Some (create_access_token SECRET_KEY ACCESS_TOKEN_EXPIRE_MINUTES
                              d expires_delta utcnow,
          <[fresh (dom h) := <["exp" := VDatetime expire]> d]> h).
Proof.
  intros Hdata expire.
  unfold create_access_token_ref, create_access_token, mbind, Heap_bind, mret,
    Heap_ret, dict_copy, dict_update, dict_read.
  rewrite Hdata. cbn zeta. rewrite !lookup_insert_eq. fold expire.
  rewrite <- insert_union_singleton_l.
  now rewrite insert_insert_eq.
Qed.

(** C10.  [create_access_token] does not touch the dictionary it is given:
    after the call the reference [data] holds the same items as before,
    and so does every other object that existed before the call; the
    expiration claim went into a copy.  The call fails only on a dangling
    reference, and the token it returns is the one computed from the
    caller's items. *)
Theorem create_access_token_keeps_data (h : heap) (data : loc)
    (expires_delta : option Z) (utcnow : Z) :
  match create_access_token_ref SECRET_KEY ACCESS_TOKEN_EXPIRE_MINUTES
                                data expires_delta utcnow h with
  | Some (tok, h') =>
      h' !! data = h !! data
      /\ (forall l, is_Some (h !! l) -> h' !! l = h !! l)
      /\ (exists d, h !! data = Some d
                    /\ tok = create_access_token SECRET_KEY
                               ACCESS_TOKEN_EXPIRE_MINUTES d expires_delta utcnow)
  | None => h !! data = None
  end.
Proof.
  destruct (h !! data) as [d|] eqn:Hdata.
  - rewrite (create_access_token_ref_run h data d expires_delta utcnow Hdata).
    assert (Hold : forall l, is_Some (h !! l) ->
              <[fresh (dom h) :=
                  <["exp" := VDatetime
                       (utcnow + token_lifetime ACCESS_TOKEN_EXPIRE_MINUTES
                                                expires_delta)]> d]> h !! l
              = h !! l).
    { intros l [x Hl]. apply lookup_insert_ne. intros Heq.
      rewrite <- Heq, fresh_is_unallocated in Hl. discriminate. }
    split; [|split].
    + rewrite Hold; [exact Hdata | rewrite Hdata; eauto].
    + exact Hold.
    + exists d. split; reflexivity.
  - unfold create_access_token_ref, mbind, Heap_bind, dict_copy.
    now rewrite Hdata.
Qed.

End Frame.

(* ===================================================================== *)
(** ** Login, and what follows a login *)
(* ===================================================================== *)

Section Login.
Context `{jose : Jose} `{pwd_context : CryptContext}.
Context `{security : !SecurityScheme}.
Variable SECRET_KEY : string.
Variable ACCESS_TOKEN_EXPIRE_MINUTES : Z.

(** An unknown username and a wrong password get the same answer. *)
Lemma login_rejects_uniformly usuarios data utcnow :
  authenticate_user usuarios data.(lr_username) data.(lr_password) = None ->
  login SECRET_KEY ACCESS_TOKEN_EXPIRE_MINUTES usuarios data utcnow
  = Raise invalid_credentials.
Proof. unfold login. now intros ->. Qed.

Lemma login_Return usuarios data utcnow tok :
  login SECRET_KEY ACCESS_TOKEN_EXPIRE_MINUTES usuarios data utcnow = Return tok ->
  exists user,
    authenticate_user usuarios data.(lr_username) data.(lr_password) = Some user
    /\ user.(username) = data.(lr_username)
    /\ tok.(access_token)
       = create_access_token SECRET_KEY ACCESS_TOKEN_EXPIRE_MINUTES
           {["sub" := VStr user.(username)]}
           (Some (timedelta_minutes ACCESS_TOKEN_EXPIRE_MINUTES)) utcnow.
Proof.
  unfold login.
  destruct (authenticate_user usuarios data.(lr_username) data.(lr_password))
    as [user|] eqn:Hauth; [|discriminate].
  intros [= <-]. exists user. split; [reflexivity|]. split; [|reflexivity].
  apply authenticate_user_Some in Hauth as (Hlookup & _ & _).
  apply get_user_by_username_Some in Hlookup as [_ Hname]. congruence.
Qed.

Hypothesis decode_encode :
  forall (claims : dict) (key alg : string) (exp now : Z),
    claims !! "exp" = Some (VDatetime exp) ->
    now < exp ->
    exists payload,
      jwt_decode (jwt_encode claims key alg) key [alg] now = inr payload
      /\ delete "exp" payload = delete "exp" claims.

(** The scenario of the specification: a user logs in, the row is then
    switched to inactive, and the token of that login, presented before
    it expires, is refused by the second stage. *)
Lemma deactivation_after_login usuarios usuarios' data tok request token_data
    user' issued_at utcnow :
  login SECRET_KEY ACCESS_TOKEN_EXPIRE_MINUTES usuarios data issued_at
  = Return tok ->
  oauth2_scheme request = Return token_data ->
  token_data.(credentials) = tok.(access_token) ->
  utcnow < issued_at + timedelta_minutes ACCESS_TOKEN_EXPIRE_MINUTES ->
  get_user_by_username usuarios' (VStr data.(lr_username)) = Some user' ->
  user'.(is_active) = false ->
  Depends_get_current_active_user SECRET_KEY usuarios' request utcnow
  = Raise inactive_user.
Proof.
  intros Hlogin Hscheme Hcred Hbefore Hlookup Hinactive.
  apply login_Return in Hlogin as (user & _ & Hname & Htok).
  rewrite <- token_lifetime_of_default in Hbefore.
  destruct (verify_created_token SECRET_KEY ACCESS_TOKEN_EXPIRE_MINUTES
              decode_encode {["sub" := VStr user.(username)]}
              (Some (timedelta_minutes ACCESS_TOKEN_EXPIRE_MINUTES))
              issued_at utcnow Hbefore) as (payload & Hvalid & Hagree).
  rewrite <- Htok, <- Hcred in Hvalid.
  assert (Hsub : dict_get payload "sub" = VStr data.(lr_username)).
  { unfold dict_get.
    rewrite (claims_agree_off_exp payload _ "sub" Hagree) by discriminate.
    rewrite lookup_singleton_eq. cbn. now rewrite Hname. }
  rewrite <- Hsub in Hlookup.
  pose proof (first_stage_resolves SECRET_KEY usuarios' request token_data
                payload user' utcnow Hscheme Hvalid Hlookup) as Hfirst.
  rewrite (second_stage_checks_flag SECRET_KEY usuarios' request user' utcnow
             Hfirst).
  now rewrite Hinactive.
Qed.

End Login.

(* ===================================================================== *)
(** ** The statements on the sample instance *)
(* ===================================================================== *)

Module Runs.
Import Sample.



Lemma authorization_checks_in_order_witness :
  Depends_get_current_active_user (security := security) SECRET_KEY [alice]
    {| Bearer.authorization := None |} 1500 = Raise MissingCredential
  /\ Depends_get_current_active_user (security := security) SECRET_KEY [alice]
       (bearer token_of_alice) 2801 = Raise token_rejected
  /\ Depends_get_current_active_user (security := security) SECRET_KEY [alice]
       (bearer token_of_alice) 1500 = Return alice.
Proof.
  split; [|split].
  - pose proof (authorization_checks_in_order (security := security)
                  SECRET_KEY [alice] {| Bearer.authorization := None |} 1500)
      as Hchecks.
    cbv zeta in Hchecks. destruct Hchecks as (Hscheme & _).
    apply Hscheme. reflexivity.
  - pose proof (authorization_checks_in_order (security := security)
                  SECRET_KEY [alice] (bearer token_of_alice) 2801) as Hchecks.
    cbv zeta in Hchecks. destruct Hchecks as (_ & Hrest & _).
    destruct (Hrest {| scheme := "Bearer"; credentials := token_of_alice |}
                eq_refl) as (Hdecode & _).
    apply Hdecode with ExpiredToken. vm_compute. reflexivity.
  - pose proof (authorization_checks_in_order (security := security)
                  SECRET_KEY [alice] (bearer token_of_alice) 1500) as Hchecks.
    cbv zeta in Hchecks. destruct Hchecks as (_ & Hrest & _).
    destruct (Hrest {| scheme := "Bearer"; credentials := token_of_alice |}
                eq_refl) as (_ & Hpayload).
    destruct (Hpayload payload_of_alice) as (_ & Hsubject);
      [vm_compute; reflexivity|].
    destruct Hsubject as (_ & Hfound); [vm_compute; discriminate|].
    destruct (Hfound alice) as (_ & Hactive); [vm_compute; reflexivity|].
    apply Hactive. reflexivity.
Defined.

Lemma create_then_verify_round_trip_witness :
  exists payload,
    verify_token (jose := jose) SECRET_KEY token_of_alice 1500 = Return payload
    /\ delete "exp" payload = delete "exp" claims_of_alice
    /\ forall key, key <> "exp" -> payload !! key = claims_of_alice !! key.
Proof.
  apply (create_then_verify_round_trip (jose := jose) SECRET_KEY
           ACCESS_TOKEN_EXPIRE_MINUTES (codec_decode_encode mac)
           claims_of_alice None 1000 1500).
  vm_compute. reflexivity.
Defined.

Lemma expired_token_is_rejected_witness :
  verify_token (jose := jose) SECRET_KEY token_of_alice 2801
  = Raise token_rejected
  /\ verify_token (jose := jose) SECRET_KEY token_of_alice 2800
     = Return payload_of_alice.
Proof.
  destruct (expired_token_is_rejected mac SECRET_KEY)
    as (Hafter & _ & Huntil & _).
  split.
  - apply Hafter with 2800; [vm_compute; reflexivity | lia].
  - apply (Huntil payload_of_alice 2800 2800); [vm_compute; reflexivity | lia].
Defined.

(** C4 as stated fails at the expiration instant itself: the token of
    alice carries the expiration instant 2800, and at the clock reading
    2800 [verify_token] returns its payload. *)
Lemma token_is_accepted_at_its_expiration :
  TokenCodec.token_expiration token_of_alice = Some 2800
  /\ verify_token (jose := jose) SECRET_KEY token_of_alice 2800
     = Return payload_of_alice.
Proof. split; vm_compute; reflexivity. Qed.



Lemma deactivated_user_is_refused_witness :
  Depends_get_current_user (security := security) SECRET_KEY [alice_inactive]
    (bearer token_of_alice) 1500 = Return alice_inactive
  /\ Depends_get_current_active_user (security := security) SECRET_KEY
       [alice_inactive] (bearer token_of_alice) 1500 = Raise inactive_user
  /\ forall (W R : Type) (handler : Usuario -> W -> Outcome R * W) (w : W),
       protected (security := security) SECRET_KEY handler [alice_inactive]
                 (bearer token_of_alice) 1500 w
       = (Raise inactive_user, w).
Proof.
  apply (deactivated_user_is_refused (security := security) SECRET_KEY
           [alice_inactive] (bearer token_of_alice)
           {| scheme := "Bearer"; credentials := token_of_alice |}
           payload_of_alice alice_inactive 1500).
  - reflexivity.
  - vm_compute. reflexivity.
  - vm_compute. reflexivity.
  - reflexivity.
Defined.



Lemma short_password_never_reaches_register_witness :
  register_endpoint (pwd_context := pwd_context) "s"%char
    "bob" "bob@example.org" "12345" empty_store
  = (Raise (RequestValidationError "password"), empty_store).
Proof.
  apply (short_password_never_reaches_register (pwd_context := pwd_context)).
  vm_compute. reflexivity.
Defined.

(** The caller's dictionary at reference 1, before and after the call. *)
Example caller_dictionary_after_the_call :
  let h : heap := {[ 1%positive := claims_of_alice ]} in
  match create_access_token_ref (jose := jose) SECRET_KEY
          ACCESS_TOKEN_EXPIRE_MINUTES 1%positive None 1000 h with
  | Some (tok, h') =>
      h' !! 1%positive = Some claims_of_alice
      /\ tok = token_of_alice
      /\ h' !! 2%positive = Some payload_of_alice
  | None => False
  end.
Proof. vm_compute. auto. Qed.

(** A registration with a password of six characters goes through: one
    lookup, one hashing, one insertion, one commit. *)
Example registration_of_bob :
  register_endpoint (pwd_context := pwd_context) "s"%char
    "bob" "bob@example.org" "123456" empty_store
  = (Return {| ur_id := 1; ur_username := "bob";
               ur_email := "bob@example.org"; ur_is_active := true |},
     {| usuarios := [ {| id := 1; username := "bob";
                         email := "bob@example.org";
                         hashed_password := kdf "s" "123456";
                         is_active := true |} ];
        usuarios_id_seq := 2;
        journal := [ Commit;
                     Insert_usuario {| id := 1; username := "bob";
                                       email := "bob@example.org";
                                       hashed_password := kdf "s" "123456";
                                       is_active := true |};
                     Hash_password "123456";
                     Select_username_or_email "bob" "bob@example.org" ] |}).
Proof. reflexivity. Qed.

End Runs.

(* ===================================================================== *)
(** ** More on the tokens and the middleware *)
(* ===================================================================== *)

Section TokenContents.
Context `{jose : Jose}.
Variable SECRET_KEY : string.
Variable ACCESS_TOKEN_EXPIRE_MINUTES : Z.

(** X1.  An ["exp"] the caller puts in [data] never reaches the token:
    [create_access_token] gives the same token whether [data] carries an
    ["exp"] of any value or none. *)
Theorem create_access_token_discards_exp (data : dict) (v : value)
    (expires_delta : option Z) (utcnow : Z) :
  create_access_token SECRET_KEY ACCESS_TOKEN_EXPIRE_MINUTES
    (<["exp" := v]> data) expires_delta utcnow
  = create_access_token SECRET_KEY ACCESS_TOKEN_EXPIRE_MINUTES
      data expires_delta utcnow
  /\ create_access_token SECRET_KEY ACCESS_TOKEN_EXPIRE_MINUTES
       (delete "exp" data) expires_delta utcnow
     = create_access_token SECRET_KEY ACCESS_TOKEN_EXPIRE_MINUTES
         data expires_delta utcnow.
Proof.
  unfold create_access_token. cbn zeta. split; f_equal.
  - apply insert_insert_eq.
  - apply insert_delete_eq.
Qed.

(** X2.  A zero [expires_delta] is false in Python, so it gives the token
    of the default lifetime; any other duration, negative ones included,
    is used as it is; and the lifetime is zero only when the configured
    number of minutes is zero. *)
Theorem zero_lifetime_falls_back_to_default (data : dict) (utcnow : Z) :
  create_access_token SECRET_KEY ACCESS_TOKEN_EXPIRE_MINUTES data (Some 0) utcnow
  = create_access_token SECRET_KEY ACCESS_TOKEN_EXPIRE_MINUTES data None utcnow
  /\ (forall d, d <> 0 ->
        token_lifetime ACCESS_TOKEN_EXPIRE_MINUTES (Some d) = d)
  /\ (forall expires_delta,
        token_lifetime ACCESS_TOKEN_EXPIRE_MINUTES expires_delta = 0 ->
        ACCESS_TOKEN_EXPIRE_MINUTES = 0).
Proof.
  split; [reflexivity|]. split.
  - apply token_lifetime_nonzero.
  - intros [d|]; unfold token_lifetime, timedelta_bool, timedelta_minutes.
    + destruct (Z.eqb_spec d 0); cbn [negb]; lia.
    + lia.
Qed.

End TokenContents.

Section LoginOutcomes.
Context `{jose : Jose} `{pwd_context : CryptContext}.
Context `{security : !SecurityScheme}.
Variable SECRET_KEY : string.
Variable ACCESS_TOKEN_EXPIRE_MINUTES : Z.


(** X4.  The user the middleware yields is a row of the table, is active,
    and carries the username the payload of the validated token has under
    ["sub"]: a token never resolves to another user than the one it
    names. *)
Theorem authorized_user_is_the_subject (usuarios : list Usuario)
    (request : Request) (utcnow : Z) (user : Usuario) :
  Depends_get_current_active_user SECRET_KEY usuarios request utcnow
  = Return user ->
  In user usuarios
  /\ user.(is_active) = true
  /\ exists token_data payload,
       oauth2_scheme request = Return token_data
       /\ verify_token SECRET_KEY token_data.(credentials) utcnow
          = Return payload
       /\ dict_get payload "sub" = VStr user.(username).
Proof.
  unfold Depends_get_current_active_user, Depends_get_current_user.
  destruct (oauth2_scheme request) as [token_data|e] eqn:Hscheme;
    [|discriminate].
  cbn [bind]. rewrite get_current_user_unfold.
  destruct (jwt_decode _ SECRET_KEY [ALGORITHM] utcnow) as [why|payload]
    eqn:Hdecode; [discriminate|].
  destruct (bool_decide (dict_get payload "sub" = VNone)); [discriminate|].
  destruct (get_user_by_username usuarios (dict_get payload "sub"))
    as [found|] eqn:Hlookup; [|discriminate].
  cbn [bind]. unfold get_current_active_user.
  destruct found.(is_active) eqn:Hactive; [|discriminate].
  intros [= <-].
  apply get_user_by_username_Some in Hlookup as [Hin Hname].
  split; [assumption|]. split; [assumption|].
  exists token_data, payload. split; [reflexivity|]. split; [|assumption].
  now apply verify_token_Return.
Qed.

(** X5.  The middleware raises nothing but the exception of the bearer
    scheme and four exceptions of its own: the rejection of the token,
    the missing subject, the unknown user, each a 401, and the inactive
    user, a 400. *)
Theorem authorization_failures (usuarios : list Usuario)
    (request : Request) (utcnow : Z) (e : exn) :
  Depends_get_current_active_user SECRET_KEY usuarios request utcnow = Raise e ->
  oauth2_scheme request = Raise e
  \/ e = token_rejected \/ e = subject_missing \/ e = user_not_found
  \/ e = inactive_user.
Proof.
  unfold Depends_get_current_active_user, Depends_get_current_user.
  destruct (oauth2_scheme request) as [token_data|e'] eqn:Hscheme.
  - cbn [bind]. rewrite get_current_user_unfold.
    destruct (jwt_decode _ SECRET_KEY [ALGORITHM] utcnow) as [why|payload].
    + intros [= <-]. auto.
    + destruct (bool_decide (dict_get payload "sub" = VNone)).
      * intros [= <-]. auto.
      * destruct (get_user_by_username usuarios (dict_get payload "sub"))
          as [found|].
        -- cbn [bind]. unfold get_current_active_user.
           destruct found.(is_active); cbn [negb]; [discriminate|].
           intros [= <-]. auto 6.
        -- intros [= <-]. auto.
  - cbn [bind]. intros [= <-]. auto.
Qed.

Hypothesis decode_encode :
  forall (claims : dict) (key alg : string) (exp now : Z),
    claims !! "exp" = Some (VDatetime exp) ->
    now < exp ->
    exists payload,
      jwt_decode (jwt_encode claims key alg) key [alg] now = inr payload
      /\ delete "exp" payload = delete "exp" claims.

(** X6.  Login and middleware compose: the token of a successful login,
    presented before the instant of the login plus the configured minutes
    against the same table, passes the middleware, which yields the very
    user [authenticate_user] returned. *)
Theorem login_then_authorized (usuarios : list Usuario) (data : LoginRequest)
    (tok : Token) (request : Request)
    (token_data : HTTPAuthorizationCredentials) (issued_at utcnow : Z) :
  login SECRET_KEY ACCESS_TOKEN_EXPIRE_MINUTES usuarios data issued_at
  = Return tok ->
  oauth2_scheme request = Return token_data ->
  token_data.(credentials) = tok.(access_token) ->
  utcnow < issued_at + 60 * ACCESS_TOKEN_EXPIRE_MINUTES ->
  exists user,
    authenticate_user usuarios data.(lr_username) data.(lr_password) = Some user
    /\ Depends_get_current_active_user SECRET_KEY usuarios request utcnow
       = Return user.
Proof.
  intros Hlogin Hscheme Hcred Hbefore.
  apply login_Return in Hlogin as (user & Hauth & Hname & Htok).
  exists user. split; [assumption|].
  apply authenticate_user_Some in Hauth as (Hlookup & _ & Hactive).
  change (60 * ACCESS_TOKEN_EXPIRE_MINUTES)
    with (timedelta_minutes ACCESS_TOKEN_EXPIRE_MINUTES) in Hbefore.
  rewrite <- token_lifetime_of_default in Hbefore.
  destruct (verify_created_token SECRET_KEY ACCESS_TOKEN_EXPIRE_MINUTES
              decode_encode {["sub" := VStr user.(username)]}
              (Some (timedelta_minutes ACCESS_TOKEN_EXPIRE_MINUTES))
              issued_at utcnow Hbefore) as (payload & Hvalid & Hagree).
  rewrite <- Htok, <- Hcred in Hvalid.
  assert (Hsub : dict_get payload "sub" = VStr data.(lr_username)).
  { unfold dict_get.
    rewrite (claims_agree_off_exp payload _ "sub" Hagree) by discriminate.
    rewrite lookup_singleton_eq. cbn. now rewrite Hname. }
  rewrite <- Hsub in Hlookup.
  pose proof (first_stage_resolves SECRET_KEY usuarios request token_data
                payload user utcnow Hscheme Hvalid Hlookup) as Hfirst.
  rewrite (second_stage_checks_flag SECRET_KEY usuarios request user utcnow
             Hfirst).
  now rewrite Hactive.
Qed.

End LoginOutcomes.

(* ===================================================================== *)
(** ** More on registration *)
(* ===================================================================== *)

(** A lookup in a table with one more row at the end. *)
Lemma get_user_by_username_app usuarios row param :
  get_user_by_username (usuarios ++ [row])%list param
  = match get_user_by_username usuarios param with
    | Some found => Some found
    | None => if username_matches param row then Some row else None
    end.
Proof.
  unfold get_user_by_username.
  induction usuarios as [|first rest IH]; cbn.
  - now destruct (username_matches param row).
  - destruct (username_matches param first); [reflexivity | exact IH].
Qed.

Lemma username_or_email_taken_spec usuario usuarios :
  existsb (username_or_email_taken usuario) usuarios = true <->
  exists row, In row usuarios
              /\ (row.(username) = usuario.(uc_username)
                  \/ row.(email) = usuario.(uc_email)).
Proof.
  rewrite existsb_exists. unfold username_or_email_taken.
  split; intros (row & Hin & H); exists row; (split; [assumption|]).
  - apply orb_true_iff in H as [H|H]; apply bool_decide_eq_true in H; auto.
  - apply orb_true_iff. destruct H as [H|H];
      [left | right]; now apply bool_decide_eq_true.
Qed.

Section RegistrationOutcomes.
Context `{pwd_context : CryptContext}.

Lemma register_taken s usuario db :
  existsb (username_or_email_taken usuario) db.(usuarios) = true ->
  register s usuario db
  = (Raise already_registered,
     did Rollback
       (did (Select_username_or_email usuario.(uc_username)
                                      usuario.(uc_email)) db)).
Proof. unfold register. cbn zeta. cbn [usuarios did]. now intros ->. Qed.

Lemma register_fresh s usuario db :
  existsb (username_or_email_taken usuario) db.(usuarios) = false ->
  register s usuario db
  = (Return {| ur_id := db.(usuarios_id_seq);
               ur_username := usuario.(uc_username);
               ur_email := usuario.(uc_email);
               ur_is_active := true |},
     {| usuarios := (db.(usuarios) ++ [registered_row s usuario db])%list;
        usuarios_id_seq := db.(usuarios_id_seq) + 1;
        journal :=
          Commit :: Insert_usuario (registered_row s usuario db)
          :: Hash_password usuario.(uc_password)
          :: Select_username_or_email usuario.(uc_username)
                                      usuario.(uc_email)
          :: db.(journal) |}).
Proof. unfold register. cbn zeta. cbn [usuarios did]. now intros ->. Qed.

(** X7.  [register] raises its 400 exactly when a row of the table
    already carries the username or the email of the request; the table
    and the sequence are then as before, and the journal shows the lookup
    and the rollback only: nothing was hashed, nothing inserted. *)
Theorem register_rejects_taken (s : salt) (usuario : UsuarioCreate)
    (db : Database) :
  (exists row, In row db.(usuarios)
               /\ (row.(username) = usuario.(uc_username)
                   \/ row.(email) = usuario.(uc_email)))
  <-> fst (register s usuario db) = Raise already_registered
      /\ (snd (register s usuario db)).(usuarios) = db.(usuarios)
      /\ (snd (register s usuario db)).(usuarios_id_seq) = db.(usuarios_id_seq)
      /\ (snd (register s usuario db)).(journal)
         = Rollback
           :: Select_username_or_email usuario.(uc_username)
                                       usuario.(uc_email)
           :: db.(journal).
Proof.
  rewrite <- username_or_email_taken_spec.
  destruct (existsb (username_or_email_taken usuario) db.(usuarios)) eqn:Htaken.
  - rewrite (register_taken s usuario db Htaken). cbn. tauto.
  - rewrite (register_fresh s usuario db Htaken). cbn.
    split; [discriminate | intros [[=] _]].
Qed.


(** X9.  [register] keeps the table well formed: from a table without a
    repeated username or email whose identifiers are below the sequence,
    it leaves such a table, whether it inserts or refuses. *)
Theorem register_keeps_usuarios_ok (s : salt) (usuario : UsuarioCreate)
    (db : Database) :
  usuarios_ok db -> usuarios_ok (snd (register s usuario db)).
Proof.
  intros (Hnames & Hemails & Hids).
  destruct (existsb (username_or_email_taken usuario) db.(usuarios)) eqn:Htaken.
  - rewrite (register_taken s usuario db Htaken). now repeat split.
  - rewrite (register_fresh s usuario db Htaken).
    assert (Hfree : forall row, In row db.(usuarios) ->
              row.(username) <> usuario.(uc_username)
              /\ row.(email) <> usuario.(uc_email)).
    { intros row Hin. split; intros Heq;
        assert (existsb (username_or_email_taken usuario) db.(usuarios) = true)
          by (apply username_or_email_taken_spec; eauto);
        congruence. }
    unfold usuarios_ok. cbn [snd usuarios usuarios_id_seq].
    rewrite !map_app. cbn [map registered_row username email].
    split; [|split].
    + apply NoDup_app. split; [assumption|]. split; [|apply NoDup_singleton].
      intros name Hin Hnew. apply list_elem_of_singleton in Hnew. subst name.
      apply list_elem_of_In, in_map_iff in Hin as (row & Hrow & Hin).
      destruct (Hfree row Hin). contradiction.
    + apply NoDup_app. split; [assumption|]. split; [|apply NoDup_singleton].
      intros mail Hin Hnew. apply list_elem_of_singleton in Hnew. subst mail.
      apply list_elem_of_In, in_map_iff in Hin as (row & Hrow & Hin).
      destruct (Hfree row Hin). contradiction.
    + apply Forall_app. split.
      * eapply Forall_impl; [exact Hids|]. cbn. intros row Hrow. lia.
      * apply Forall_singleton. cbn. lia.
Qed.

(** X10.  Registration and authentication compose: with a password
    context that verifies the hash it has just made of this password, the
    user a successful [register] inserted authenticates with the username
    and the password of the request. *)
Theorem register_then_authenticate (s : salt) (usuario : UsuarioCreate)
    (db : Database) :
  pwd_context_verify usuario.(uc_password)
    (pwd_context_hash s usuario.(uc_password)) = true ->
  (forall row, In row db.(usuarios) ->
     row.(username) <> usuario.(uc_username)
     /\ row.(email) <> usuario.(uc_email)) ->
  authenticate_user (snd (register s usuario db)).(usuarios)
                    usuario.(uc_username) usuario.(uc_password)
  = Some (registered_row s usuario db).
Proof.
  intros Hverify Hfree.
  assert (Hfresh : existsb (username_or_email_taken usuario) db.(usuarios)
                   = false).
  { apply not_true_is_false. intros Htaken.
    apply username_or_email_taken_spec in Htaken as (row & Hin & Hsame).
    destruct (Hfree row Hin). tauto. }
  rewrite (register_fresh s usuario db Hfresh). cbn [snd usuarios].
  apply authenticate_user_Some. split; [|split].
  - rewrite get_user_by_username_app.
    replace (get_user_by_username db.(usuarios) (VStr usuario.(uc_username)))
      with (@None Usuario).
    + unfold username_matches, registered_row. cbn.
      now rewrite bool_decide_eq_true_2.
    + symmetry. apply get_user_by_username_None. intros row Hin [= Heq].
      destruct (Hfree row Hin). congruence.
  - exact Hverify.
  - reflexivity.
Qed.

(** X11.  [register] does not disturb the other users: the lookup of any
    username other than the one of the request gives the same row after
    the call as before, whether the call inserts or refuses. *)
Theorem register_keeps_other_users (s : salt) (usuario : UsuarioCreate)
    (db : Database) (name : string) :
  name <> usuario.(uc_username) ->
  get_user_by_username (snd (register s usuario db)).(usuarios) (VStr name)
  = get_user_by_username db.(usuarios) (VStr name).
Proof.
  intros Hother.
  destruct (existsb (username_or_email_taken usuario) db.(usuarios)) eqn:Htaken.
  - now rewrite (register_taken s usuario db Htaken).
  - rewrite (register_fresh s usuario db Htaken). cbn [snd usuarios].
    rewrite get_user_by_username_app.
    destruct (get_user_by_username db.(usuarios) (VStr name)); [reflexivity|].
    unfold username_matches, registered_row. cbn.
    rewrite bool_decide_eq_false_2; [reflexivity | congruence].
Qed.

End RegistrationOutcomes.

(* ===================================================================== *)
(** ** Letter case *)
(* ===================================================================== *)

Lemma lower_char_idempotent (c : ascii) :
  lower_char (lower_char c) = lower_char c.
Proof. destruct c as [[] [] [] [] [] [] [] []]; reflexivity. Qed.

Lemma lower_idempotent (s : string) : lower (lower s) = lower s.
Proof.
  induction s as [|c rest IH]; [reflexivity|].
  simpl. now rewrite lower_char_idempotent, IH.
Qed.

Lemma lower_app (a b : string) : lower (a ++ b) = lower a ++ lower b.
Proof.
  induction a as [|c rest IH]; [reflexivity|].
  simpl. rewrite IH. reflexivity.
Qed.

Lemma lower_length (s : string) : String.length (lower s) = String.length s.
Proof. induction s as [|c rest IH]; [reflexivity|]. simpl. now rewrite IH. Qed.

Lemma prefix_app (a b : string) : String.prefix a (a ++ b) = true.
Proof.
  induction a as [|c rest IH]; [now destruct b|].
  simpl. destruct (ascii_dec c c); [exact IH | contradiction].
Qed.

Lemma contains_prefix (needle haystack : string) :
  String.prefix needle haystack = true -> contains needle haystack = true.
Proof.
  intros Hprefix. destruct haystack; cbn [contains]; now rewrite Hprefix.
Qed.

(** A text that has [needle] somewhere in it contains it. *)
Lemma contains_app (needle before after : string) :
  contains needle (before ++ needle ++ after) = true.
Proof.
  induction before as [|c rest IH].
  - change ("" ++ needle ++ after) with (needle ++ after).
    apply contains_prefix, prefix_app.
  - change (String c rest ++ needle ++ after)
      with (String c (rest ++ needle ++ after)).
    cbn [contains]. rewrite IH. apply orb_true_r.
Qed.

(* ===================================================================== *)
(** ** The product model *)
(* ===================================================================== *)

Lemma validar_estado_cases (v : string) :
  match validar_estado v with
  | Valid r => r = lower v /\ (r = "activo" \/ r = "descontinuado")
  | ValueError _ => lower v <> "activo" /\ lower v <> "descontinuado"
  end.
Proof.
  unfold validar_estado.
  destruct (decide (lower v ∈ ["activo"; "descontinuado"])) as [Hin|Hout].
  - rewrite bool_decide_eq_true_2 by assumption. cbn [negb].
    split; [reflexivity|].
    apply list_elem_of_In in Hin. cbn in Hin. intuition congruence.
  - rewrite bool_decide_eq_false_2 by assumption. cbn [negb].
    split; intros Heq; apply Hout; rewrite Heq; set_solver.
Qed.

(** X12.  [validar_estado] accepts a value exactly when, letter case
    apart, it is one of the two states; the value it returns is then the
    state in lower case, one of ["activo"] and ["descontinuado"], and
    validating that value again returns it unchanged. *)
Theorem validar_estado_normalizes (v : string) :
  match validar_estado v with
  | Valid r =>
      r = lower v
      /\ (r = "activo" \/ r = "descontinuado")
      /\ validar_estado r = Valid r
  | ValueError _ => lower v <> "activo" /\ lower v <> "descontinuado"
  end.
Proof.
  unfold validar_estado.
  destruct (bool_decide (lower v ∈ ["activo"; "descontinuado"])) eqn:Hin;
    cbn [negb].
  - apply bool_decide_eq_true in Hin.
    assert (Hstate : lower v = "activo" \/ lower v = "descontinuado").
    { apply list_elem_of_In in Hin. cbn in Hin. intuition congruence. }
    split; [reflexivity|]. split; [assumption|].
    rewrite lower_idempotent.
    now rewrite bool_decide_eq_true_2 by assumption.
  - apply bool_decide_eq_false in Hin.
    split; intros Heq; apply Hin; rewrite Heq; set_solver.
Qed.

(** X13.  A [ProductoCreate] that passes validation has a name of 1 to 255
    characters, a description of at most 1000, a state that is
    ["activo"] or ["descontinuado"], a date of entry that is not after
    today and a minimum stock above zero; and every body that meets these
    constraints, with the state in any letter case, is accepted. *)
Theorem ProductoCreate_validate_spec (today : Z) (body : ProductoBody) :
  (forall producto,
      ProductoCreate_validate today body = inr producto ->
      (1 <= String.length producto.(nombre) <= 255)%nat
      /\ (String.length producto.(descripcion) <= 1000)%nat
      /\ (producto.(estado) = "activo" \/ producto.(estado) = "descontinuado")
      /\ producto.(fecha_entrada) <= today
      /\ 0 < producto.(nivel_minimo_stock))
  /\ ((1 <= String.length body.(b_nombre) <= 255)%nat ->
      (String.length (default "" body.(b_descripcion)) <= 1000)%nat ->
      (lower body.(b_estado) = "activo"
       \/ lower body.(b_estado) = "descontinuado") ->
      body.(b_fecha_entrada) <= today ->
      0 < body.(b_nivel_minimo_stock) ->
      exists producto, ProductoCreate_validate today body = inr producto).
Proof.
  unfold ProductoCreate_validate, ProductoCreate_errors, validar_fecha_entrada.
  pose proof (validar_estado_cases body.(b_estado)) as Hestado.
  destruct (Nat.ltb_spec (String.length body.(b_nombre)) 1) as [Hn1|Hn1];
    destruct (Nat.ltb_spec 255 (String.length body.(b_nombre))) as [Hn2|Hn2];
    destruct (Nat.ltb_spec 1000 (String.length (default "" body.(b_descripcion))))
      as [Hd|Hd];
    destruct (validar_estado body.(b_estado)) as [r|msg];
    destruct (Z.ltb_spec today body.(b_fecha_entrada)) as [Hf|Hf];
    destruct (Z.ltb_spec 0 body.(b_nivel_minimo_stock)) as [Hs|Hs];
    cbn [orb app].
  all: split;
    [ intros producto Heq; try discriminate
    | intros Hnombre Hdesc Hstate Hfecha Hstock; try lia ].
  all: try (destruct Hestado as [Ha Hb]; destruct Hstate; congruence).
  - injection Heq as <-. cbn.
    destruct Hestado as (-> & Hstate). repeat split; auto; lia.
  - eauto.
Qed.

(* ===================================================================== *)
(** ** Rows and dictionaries *)
(* ===================================================================== *)

Section RowProperties.
Context {A : Type}.

Local Abbreviation put := (fun (d : gmap string A) (kv : string * A) =>
                            <[kv.1 := kv.2]> d).

Lemma foldl_put_other (pairs : list (string * A)) (d : gmap string A)
    (k : string) :
  (forall v, ~ In (k, v) pairs) ->
  foldl put d pairs !! k = d !! k.
Proof.
  revert d. induction pairs as [|[k0 v0] rest IH]; intros d Hout;
    [reflexivity|].
  cbn [foldl]. rewrite IH.
  - cbn. apply lookup_insert_ne. intros ->. apply (Hout v0). now left.
  - intros v Hin. apply (Hout v). now right.
Qed.

(** The value under a key is the one of the last pair with that key. *)
Lemma foldl_put_last (before after : list (string * A)) (d : gmap string A)
    (k : string) (v : A) :
  (forall w, ~ In (k, w) after) ->
  foldl put d (before ++ (k, v) :: after) !! k = Some v.
Proof.
  intros Hlast. rewrite foldl_app. cbn [foldl].
  rewrite foldl_put_other by assumption. cbn. apply lookup_insert_eq.
Qed.

Lemma zip_lookup_Some (keys : list string) (values : list A) (i : nat)
    (k : string) (v : A) :
  zip keys values !! i = Some (k, v) <->
  keys !! i = Some k /\ values !! i = Some v.
Proof.
  revert values i. induction keys as [|k0 keys IH]; intros [|v0 values] [|i];
    cbn; try (split; [discriminate | intros [[=] [=]]]).
  - split; [intros [= -> ->]; auto | intros [[= ->] [= ->]]; reflexivity].
  - apply IH.
Qed.

Lemma in_zip_key (keys : list string) (values : list A) (k : string) (v : A) :
  In (k, v) (zip keys values) ->
  exists i, keys !! i = Some k /\ values !! i = Some v.
Proof.
  intros Hin. apply list_elem_of_In, list_elem_of_lookup in Hin as [i Hi].
  exists i. now apply zip_lookup_Some.
Qed.

Lemma dict_zip_last (keys : list string) (values : list A) (i : nat)
    (k : string) (v : A) :
  keys !! i = Some k ->
  values !! i = Some v ->
  (forall j, (i < j)%nat -> (j < length values)%nat -> keys !! j <> Some k) ->
  dict_zip keys values !! k = Some v.
Proof.
  intros Hk Hv Hlast. unfold dict_zip.
  assert (Hi : zip keys values !! i = Some (k, v))
    by now apply zip_lookup_Some.
  rewrite <- (take_drop_middle _ _ _ Hi).
  apply foldl_put_last. intros w Hin.
  apply list_elem_of_In, list_elem_of_lookup in Hin as [j Hj].
  rewrite lookup_drop in Hj. apply zip_lookup_Some in Hj as [Hkj Hvj].
  apply (Hlast (S i + j)%nat); [lia | | assumption].
  now apply lookup_lt_Some with w.
Qed.

Lemma foldl_put_None (pairs : list (string * A)) (d : gmap string A)
    (k : string) :
  foldl put d pairs !! k = None <->
  d !! k = None /\ forall v, ~ In (k, v) pairs.
Proof.
  revert d. induction pairs as [|[k0 v0] rest IH]; intros d; cbn [foldl].
  - split; [intros Hd; split; [assumption | intros v []] | now intros [Hd _]].
  - rewrite IH. cbn. rewrite lookup_insert_None. split.
    + intros [[Hd Hne] Hrest]. split; [assumption|].
      intros v [[= <- <-]|Hin]; [congruence | now apply (Hrest v)].
    + intros [Hd Hout]. split; [split; [assumption|]|].
      * intros <-. apply (Hout v0). now left.
      * intros v Hin. apply (Hout v). now right.
Qed.

Lemma foldl_put_Some (pairs : list (string * A)) (d : gmap string A)
    (k : string) (v : A) :
  foldl put d pairs !! k = Some v -> d !! k = Some v \/ In (k, v) pairs.
Proof.
  revert d. induction pairs as [|[k0 v0] rest IH]; intros d; cbn [foldl];
    [auto|].
  intros Hsome. apply IH in Hsome as [Hsome|Hin]; [|right; now right].
  cbn in Hsome. destruct (decide (k0 = k)) as [->|Hne].
  - rewrite lookup_insert_eq in Hsome. injection Hsome as ->.
    right. now left.
  - rewrite lookup_insert_ne in Hsome by assumption. now left.
Qed.

Lemma dict_zip_None (keys : list string) (values : list A) (k : string) :
  dict_zip keys values !! k = None <->
  forall i, (i < length values)%nat -> keys !! i <> Some k.
Proof.
  unfold dict_zip. rewrite foldl_put_None. split.
  - intros [_ Hout] i Hi Hk.
    destruct (lookup_lt_is_Some_2 values i Hi) as [v Hv].
    apply (Hout v). apply list_elem_of_In, list_elem_of_lookup.
    exists i. now apply zip_lookup_Some.
  - intros Hout. split; [apply lookup_empty|].
    intros v Hin. apply in_zip_key in Hin as (i & Hk & Hv).
    apply (Hout i); [now apply lookup_lt_Some with v | assumption].
Qed.

Lemma dict_zip_Some (keys : list string) (values : list A) (k : string)
    (v : A) :
  dict_zip keys values !! k = Some v ->
  exists i, keys !! i = Some k /\ values !! i = Some v.
Proof.
  unfold dict_zip. intros Hsome.
  apply foldl_put_Some in Hsome as [Hempty|Hin].
  - rewrite lookup_empty in Hempty. discriminate.
  - now apply in_zip_key.
Qed.

(** X14.  [row_to_dict] on a result whose column names are all different:
    the value of the row at a position is found in the dictionary under
    the name of the column at that position; and [None] for a row that is
    [None]. *)
Theorem row_to_dict_reads_back (cur : cursor) (row : list A) (i : nat)
    (name : string) (type_code : Z) (v : A) :
  NoDup (map fst cur.(description)) ->
  cur.(description) !! i = Some (name, type_code) ->
  row !! i = Some v ->
  row_to_dict cur (@None (list A)) = None
  /\ exists d, row_to_dict cur (Some row) = Some d /\ d !! name = Some v.
Proof.
  intros Hnodup Hcolumn Hvalue. split; [reflexivity|].
  eexists. split; [reflexivity|]. cbn zeta.
  assert (Hname : map fst cur.(description) !! i = Some name).
  { change (map fst cur.(description)) with (fst <$> cur.(description)).
    rewrite list_lookup_fmap, Hcolumn. reflexivity. }
  apply dict_zip_last with i; [assumption | assumption |].
  intros j Hlt _ Hj.
  pose proof (NoDup_lookup _ i j name Hnodup Hname Hj). lia.
Qed.

(** X15.  The dictionary [row_to_dict] builds has a key for a column name
    exactly when that name is among the first [len(row)] columns: values
    beyond the description are dropped, names beyond the row get no key;
    and of two columns with one name the value of the later one is
    kept. *)
Theorem row_to_dict_keys (cur : cursor) (row : list A) (name : string) :
  let d := dict_zip (map fst cur.(description)) row in
  row_to_dict cur (Some row) = Some d
  /\ (is_Some (d !! name) <->
      exists i, (i < length row)%nat
                /\ map fst cur.(description) !! i = Some name)
  /\ (forall i v,
        map fst cur.(description) !! i = Some name ->
        row !! i = Some v ->
        (forall j, (i < j)%nat -> (j < length row)%nat ->
                   map fst cur.(description) !! j <> Some name) ->
        d !! name = Some v).
Proof.
  intros d. subst d. split; [reflexivity|]. split.
  - split.
    + intros [v Hsome]. apply dict_zip_Some in Hsome as (i & Hk & Hv).
      exists i. split; [now apply lookup_lt_Some with v | assumption].
    + intros (i & Hi & Hk). apply not_eq_None_Some. intros Hnone.
      now apply (proj1 (dict_zip_None _ _ _) Hnone i).
  - intros i v. apply dict_zip_last.
Qed.

Lemma omap_row_to_dict (cur : cursor) (rows : list (list A)) :
  omap (fun row => row_to_dict cur (Some row)) rows
  = map (dict_zip (map fst cur.(description))) rows.
Proof.
  induction rows as [|row rest IH]; [reflexivity|].
  cbn [omap list_omap row_to_dict map]. now f_equal.
Qed.

Lemma rows_to_dict_list_map (cur : cursor) (rows : list (list A)) :
  rows_to_dict_list cur rows = map (dict_zip (map fst cur.(description))) rows.
Proof.
  unfold rows_to_dict_list. destruct rows; [reflexivity|].
  apply omap_row_to_dict.
Qed.

(** X16.  [rows_to_dict_list] gives one dictionary per row, in the order
    of the rows: as many dictionaries as rows, none for no row, and the
    dictionary at a position is the one [row_to_dict] builds from the row
    at that position. *)
Theorem rows_to_dict_list_pointwise (cur : cursor) (rows : list (list A)) :
  length (rows_to_dict_list cur rows) = length rows
  /\ forall i, rows_to_dict_list cur rows !! i
               = rows !! i ≫= (fun row => row_to_dict cur (Some row)).
Proof.
  rewrite rows_to_dict_list_map. split; [apply length_map|].
  intros i. change (map ?f rows) with (f <$> rows).
  rewrite list_lookup_fmap. now destruct (rows !! i).
Qed.

End RowProperties.

(* ===================================================================== *)
(** ** The product operations *)
(* ===================================================================== *)

(** X17.  [handle_db_exception] ignores the name of the operation and
    answers with one of four statuses: 409 for an integrity error whose
    text has "unique" or "duplicate" in it in any letter case, 400 for
    any other integrity error, 503 for every operational error, 500 for
    everything else. *)
Theorem handle_db_exception_statuses (operation : string) :
  (forall e operation',
      handle_db_exception e operation = handle_db_exception e operation')
  /\ (forall before word after,
      lower word = "unique" \/ lower word = "duplicate" ->
      handle_db_exception (IntegrityError (before ++ word ++ after)) operation
      = HTTPException 409 "Ya existe un producto con ese nombre" [])
  /\ (forall text,
      contains "unique" (lower text) = false ->
      contains "duplicate" (lower text) = false ->
      handle_db_exception (IntegrityError text) operation
      = HTTPException 400 ("Error de integridad: " ++ text) [])
  /\ (forall text, exists detail,
      handle_db_exception (OperationalError text) operation
      = HTTPException 503 detail [])
  /\ (forall text,
      handle_db_exception (OtherException text) operation
      = HTTPException 500 ("Error interno: " ++ text) []).
Proof.
  split; [intros [text|text|text] operation'; reflexivity|].
  split; [|split; [|split]].
  - intros before word after Hword. unfold handle_db_exception.
    rewrite !lower_app.
    destruct Hword as [-> | ->]; rewrite contains_app;
      [reflexivity | now rewrite orb_true_r].
  - intros text Hunique Hduplicate. unfold handle_db_exception.
    now rewrite Hunique, Hduplicate.
  - intros text. eexists. reflexivity.
  - intros text. reflexivity.
Qed.

Lemma in_lookup_name (names : list string) (name : string) :
  In name names -> exists i, names !! i = Some name.
Proof. intros Hin. now apply list_elem_of_lookup, list_elem_of_In. Qed.

(** Under a column of the result, the dictionary of a product's tuple has
    the value of the product for that column. *)
Lemma dict_of_tuple_lookup (cur : cursor) (p : Producto) (column : string) :
  NoDup (map fst cur.(description)) ->
  In column (map fst cur.(description)) ->
  dict_zip (map fst cur.(description)) (tuple_of cur p) !! column
  = Some (cell_of p column).
Proof.
  intros Hnodup Hin. apply in_lookup_name in Hin as [i Hi].
  apply dict_zip_last with i; [assumption | |].
  - unfold tuple_of.
    change (map fst cur.(description)) with (fst <$> cur.(description)) in Hi.
    rewrite list_lookup_fmap in Hi.
    change (map ?f cur.(description)) with (f <$> cur.(description)).
    rewrite list_lookup_fmap.
    destruct (cur.(description) !! i) as [[name type_code]|]; [|discriminate].
    cbn in Hi |- *. now injection Hi as ->.
  - intros j Hlt _ Hj. pose proof (NoDup_lookup _ i j column Hnodup Hi Hj). lia.
Qed.

(** A product goes through the tuple and the dictionary unchanged,
    whatever the order of the columns and whatever other columns there
    are. *)
Lemma Producto_of_tuple (cur : cursor) (p : Producto) :
  productos_columns_ok cur ->
  Producto_of_dict (dict_zip (map fst cur.(description)) (tuple_of cur p))
  = Some p.
Proof.
  intros [Hnodup Hfields]. unfold Producto_fields in Hfields.
  repeat (apply Forall_cons in Hfields as [? Hfields]).
  unfold Producto_of_dict.
  rewrite !dict_of_tuple_lookup by assumption.
  now destruct p.
Qed.

Lemma tuple_of_not_empty (cur : cursor) (p : Producto) :
  productos_columns_ok cur -> tuple_of cur p <> [].
Proof.
  intros [_ Hfields]. apply Forall_cons in Hfields as [Hid _].
  unfold tuple_of. destruct cur.(description); [destruct Hid | discriminate].
Qed.

Section ProductProperties.
Variable productos_cursor : cursor.
Variable ILIKE : string -> string -> bool.
Variable str_ValidationError : gmap string cell -> string.
Hypothesis columns_ok : productos_columns_ok productos_cursor.

Lemma build_Producto_of_tuple (p : Producto) (operation : string) :
  build_Producto str_ValidationError
    (dict_zip (map fst productos_cursor.(description))
              (tuple_of productos_cursor p)) operation
  = Return p.
Proof. unfold build_Producto. now rewrite Producto_of_tuple. Qed.

Lemma obtener_producto_find (producto_id : Z) (current_user : Usuario)
    (db : Catalogo) :
  obtener_producto productos_cursor str_ValidationError producto_id
                   current_user db
  = match List.find (fun r => Z.eqb r.(p_id) producto_id) db.(productos) with
    | Some p => Return p
    | None => Raise not_found_producto
    end.
Proof.
  unfold obtener_producto.
  destruct (List.find _ db.(productos)) as [p|]; [|reflexivity].
  cbn [fmap option_fmap option_map].
  pose proof (tuple_of_not_empty productos_cursor p columns_ok) as Hne.
  destruct (tuple_of productos_cursor p) as [|c cs] eqn:Htuple;
    [contradiction|].
  cbn [row_to_dict]. rewrite <- Htuple.
  destruct columns_ok as [Hnodup Hfields].
  apply Forall_cons in Hfields as [_ Hfields].
  apply Forall_cons in Hfields as [Hnombre _].
  rewrite dict_of_tuple_lookup by assumption.
  apply build_Producto_of_tuple.
Qed.

(** X20.  [obtener_producto] reads the row by the names of the columns:
    whatever the order of the columns of the table, and whatever other
    columns it has, the answer is the first stored product with the
    identifier, field for field, and the 404 of the handler when there is
    none. *)
Theorem obtener_producto_by_column_name (producto_id : Z)
    (current_user : Usuario) (db : Catalogo) :
  (forall p,
      List.find (fun r => Z.eqb r.(p_id) producto_id) db.(productos) = Some p ->
      obtener_producto productos_cursor str_ValidationError producto_id
                       current_user db = Return p)
  /\ ((forall p, In p db.(productos) -> p.(p_id) <> producto_id) ->
      obtener_producto productos_cursor str_ValidationError producto_id
                       current_user db = Raise not_found_producto).
Proof.
  rewrite obtener_producto_find. split.
  - now intros p ->.
  - intros Hnone.
    destruct (List.find _ db.(productos)) as [p|] eqn:Hfind; [|reflexivity].
    apply find_some in Hfind as [Hin Hid].
    apply Z.eqb_eq in Hid. now destruct (Hnone p Hin).
Qed.

End ProductProperties.

Lemma find_by_id_app (rows : list Producto) (row : Producto) (producto_id : Z) :
  List.find (fun r => Z.eqb r.(p_id) producto_id) (rows ++ [row])%list
  = match List.find (fun r => Z.eqb r.(p_id) producto_id) rows with
    | Some found => Some found
    | None => if Z.eqb row.(p_id) producto_id then Some row else None
    end.
Proof.
  induction rows as [|first rest IH]; cbn.
  - now destruct (Z.eqb row.(p_id) producto_id).
  - destruct (Z.eqb first.(p_id) producto_id); [reflexivity | exact IH].
Qed.

Lemma find_by_id_None (rows : list Producto) (producto_id : Z) :
  (forall p, In p rows -> p.(p_id) <> producto_id) ->
  List.find (fun r => Z.eqb r.(p_id) producto_id) rows = None.
Proof.
  intros Hnone.
  destruct (List.find _ rows) as [p|] eqn:Hfind; [|reflexivity].
  apply find_some in Hfind as [Hin Hid]. apply Z.eqb_eq in Hid.
  now destruct (Hnone p Hin).
Qed.

Lemma name_taken_spec (rows : list Producto) (name : string) :
  existsb (fun row => String.eqb row.(p_nombre) name) rows = true <->
  exists row, In row rows /\ row.(p_nombre) = name.
Proof.
  rewrite existsb_exists.
  split; intros (row & Hin & H); exists row; (split; [assumption|]);
    now apply String.eqb_eq.
Qed.

Lemma validar_proveedor_Return (db : Catalogo) (proveedor_id : Z) :
  validar_proveedor db proveedor_id = Return tt <->
  (forall ids, db.(proveedores) = Some ids -> In proveedor_id ids).
Proof.
  unfold validar_proveedor. destruct db.(proveedores) as [ids|].
  - destruct (existsb (Z.eqb proveedor_id) ids) eqn:Hex.
    + apply existsb_exists in Hex as (x & Hin & Heq).
      apply Z.eqb_eq in Heq. subst x.
      split; [intros _ ids' [= <-]; assumption | reflexivity].
    + split; [discriminate|]. intros Hin. exfalso.
      assert (existsb (Z.eqb proveedor_id) ids = true); [|congruence].
      apply existsb_exists. exists proveedor_id.
      split; [now apply Hin | apply Z.eqb_refl].
  - split; [intros _ ids [=] | reflexivity].
Qed.

Lemma validar_impuesto_Return (db : Catalogo) (impuesto_id : Z) :
  validar_impuesto db impuesto_id = Return tt <->
  (forall ids, db.(impuestos) = Some ids -> In impuesto_id ids).
Proof.
  unfold validar_impuesto. destruct db.(impuestos) as [ids|].
  - destruct (existsb (Z.eqb impuesto_id) ids) eqn:Hex.
    + apply existsb_exists in Hex as (x & Hin & Heq).
      apply Z.eqb_eq in Heq. subst x.
      split; [intros _ ids' [= <-]; assumption | reflexivity].
    + split; [discriminate|]. intros Hin. exfalso.
      assert (existsb (Z.eqb impuesto_id) ids = true); [|congruence].
      apply existsb_exists. exists impuesto_id.
      split; [now apply Hin | apply Z.eqb_refl].
  - split; [intros _ ids [=] | reflexivity].
Qed.

(** X18.  [crear_producto] either fails and leaves the store exactly as
    it was, or it succeeds, and then: the supplier is a key of
    [proveedores] unless that table does not exist, the tax is a key of
    [impuestos] unless that table does not exist, no stored product had
    the name, and the product is appended with the next identifier of
    the sequence, which is the identifier of the answer. *)
Theorem crear_producto_outcomes (producto : ProductoCreate)
    (current_user : Usuario) (db : Catalogo) :
  (forall e, fst (crear_producto producto current_user db) = Raise e ->
             snd (crear_producto producto current_user db) = db)
  /\ (forall row,
      fst (crear_producto producto current_user db) = Return row ->
      row = Producto_of_create db.(productos_id_seq) producto
      /\ (snd (crear_producto producto current_user db)).(productos)
         = (db.(productos) ++ [row])%list
      /\ (snd (crear_producto producto current_user db)).(productos_id_seq)
         = db.(productos_id_seq) + 1
      /\ (forall ids, db.(proveedores) = Some ids ->
                      In producto.(proveedor_id) ids)
      /\ (forall ids, db.(impuestos) = Some ids ->
                      In producto.(impuesto_id) ids)
      /\ (forall p, In p db.(productos) -> p.(p_nombre) <> producto.(nombre))).
Proof.
  unfold crear_producto.
  destruct (validar_proveedor db producto.(proveedor_id)) as [[]|e1] eqn:Hprov;
    [|split; [reflexivity | discriminate]].
  destruct (validar_impuesto db producto.(impuesto_id)) as [[]|e2] eqn:Himp;
    [|split; [reflexivity | discriminate]].
  destruct (existsb _ db.(productos)) eqn:Hname;
    [split; [reflexivity | discriminate]|].
  cbn zeta. split; [discriminate|].
  intros row [= <-]. cbn [snd productos productos_id_seq].
  repeat split.
  - now apply validar_proveedor_Return.
  - now apply validar_impuesto_Return.
  - intros p Hin Hsame.
    assert (existsb (fun row => (row.(p_nombre) =? producto.(nombre))%string)
                    db.(productos) = true); [|congruence].
    apply name_taken_spec. eauto.
Qed.

(** X19.  Creating and reading compose: in a store whose identifiers are
    below the sequence, the product [crear_producto] answers with is the
    one [obtener_producto] returns for its identifier afterwards. *)
Theorem crear_then_obtener (productos_cursor : cursor)
    (str_ValidationError : gmap string cell -> string)
    (producto : ProductoCreate) (current_user : Usuario) (db : Catalogo)
    (row : Producto) :
  productos_columns_ok productos_cursor ->
  Forall (fun p => p.(p_id) < db.(productos_id_seq)) db.(productos) ->
  fst (crear_producto producto current_user db) = Return row ->
  obtener_producto productos_cursor str_ValidationError row.(p_id)
    current_user (snd (crear_producto producto current_user db))
  = Return row.
Proof.
  intros Hcolumns Hids Hcreated.
  rewrite obtener_producto_find by assumption.
  unfold crear_producto in *.
  destruct (validar_proveedor db producto.(proveedor_id)) as [[]|e1];
    [|discriminate].
  destruct (validar_impuesto db producto.(impuesto_id)) as [[]|e2];
    [|discriminate].
  destruct (existsb _ db.(productos)); [discriminate|].
  cbn zeta in *. cbn [fst] in Hcreated. injection Hcreated as <-.
  cbn [snd productos Producto_of_create p_id].
  rewrite find_by_id_app, find_by_id_None.
  - cbn [Producto_of_create p_id]. now rewrite Z.eqb_refl.
  - intros p Hin Heq. rewrite Forall_forall in Hids.
    specialize (Hids p (proj2 (list_elem_of_In _ _) Hin)). cbn in Hids. lia.
Qed.

(* ===================================================================== *)
(** ** Listing, deleting and updating products *)
(* ===================================================================== *)

Lemma by_id_total : Total by_id.
Proof. intros a b. unfold by_id. lia. Qed.

Lemma by_id_transitive : Transitive by_id.
Proof. intros a b c. unfold by_id. lia. Qed.

Lemma rowcount_zero (rows : list Producto) (producto_id : Z) :
  length (filter (fun r => r.(p_id) = producto_id) rows) = 0%nat <->
  forall p, In p rows -> p.(p_id) <> producto_id.
Proof.
  induction rows as [|first rest IH]; [cbn; tauto|].
  rewrite filter_cons. destruct (decide (first.(p_id) = producto_id)).
  - cbn. split; [discriminate|]. intros Hnone.
    now destruct (Hnone first (or_introl eq_refl)).
  - rewrite IH. split.
    + intros Hrest p [<-|Hin]; [assumption | now apply Hrest].
    + intros Hall p Hin. apply Hall. now right.
Qed.

Lemma find_by_id_filter (rows : list Producto) (producto_id other : Z) :
  other <> producto_id ->
  List.find (fun r => Z.eqb r.(p_id) other)
            (filter (fun r => r.(p_id) <> producto_id) rows)
  = List.find (fun r => Z.eqb r.(p_id) other) rows.
Proof.
  intros Hother. induction rows as [|first rest IH]; [reflexivity|].
  rewrite filter_cons. destruct (decide (first.(p_id) <> producto_id)) as [|Heq].
  - cbn. now rewrite IH.
  - cbn. destruct (Z.eqb_spec first.(p_id) other); [|exact IH].
    exfalso. apply Heq. congruence.
Qed.

Section Listing.
Variable productos_cursor : cursor.
Variable ILIKE : string -> string -> bool.
Variable str_ValidationError : gmap string cell -> string.

Local Abbreviation page := (productos_page ILIKE).

(** X24.  The page of [GET /productos/] has at most [limit] products, in
    ascending order of identifier, and every product in it is a stored
    product that meets the conditions of the request. *)
Theorem productos_page_is_sorted_and_bounded (skip limit : Z)
    (estado : option string) (proveedor_id : option Z) (search : option string)
    (db : Catalogo) :
  (length (page skip limit estado proveedor_id search db) <= Z.to_nat limit)%nat
  /\ StronglySorted by_id (page skip limit estado proveedor_id search db)
  /\ (forall p, In p (page skip limit estado proveedor_id search db) ->
        In p db.(productos)
        /\ row_selected ILIKE estado proveedor_id search p = true).
Proof.
  unfold productos_page.
  set (selected := filter _ db.(productos)).
  set (sorted := merge_sort by_id selected).
  assert (Hsorted : StronglySorted by_id sorted)
    by (apply StronglySorted_merge_sort;
        [apply by_id_transitive | apply by_id_total]).
  split; [|split].
  - rewrite length_take. lia.
  - rewrite <- (take_drop (Z.to_nat skip) sorted) in Hsorted.
    apply StronglySorted_app_1_r in Hsorted.
    rewrite <- (take_drop (Z.to_nat limit) (drop (Z.to_nat skip) sorted))
      in Hsorted.
    now apply StronglySorted_app_1_l in Hsorted.
  - intros p Hin. apply list_elem_of_In in Hin.
    apply (fun H => elem_of_sublist _ _ _ H (sublist_take _ _)) in Hin.
    apply (fun H => elem_of_sublist _ _ _ H (sublist_drop _ _)) in Hin.
    unfold sorted in Hin. rewrite merge_sort_Permutation in Hin.
    apply list_elem_of_filter in Hin as [Hselected Hin].
    split; [now apply list_elem_of_In | assumption].
Qed.

(** X25.  Pages compose: a page of [a + b] products from an offset is the
    page of [a] products from that offset followed by the page of [b]
    products from the offset moved by [a]. *)
Theorem productos_pages_compose (skip a b : Z)
    (estado : option string) (proveedor_id : option Z) (search : option string)
    (db : Catalogo) :
  0 <= skip -> 0 <= a -> 0 <= b ->
  page skip (a + b) estado proveedor_id search db
  = (page skip a estado proveedor_id search db
     ++ page (skip + a) b estado proveedor_id search db)%list.
Proof.
  intros Hskip Ha Hb. unfold productos_page.
  set (sorted := merge_sort by_id _).
  rewrite !Z2Nat.inj_add by assumption.
  rewrite <- take_take_drop. f_equal. f_equal.
  rewrite drop_drop. reflexivity.
Qed.

Lemma row_selected_lower (estado : string) (proveedor_id : option Z)
    (search : option string) (row : Producto) :
  row_selected ILIKE (Some (lower estado)) proveedor_id search row
  = row_selected ILIKE (Some estado) proveedor_id search row.
Proof.
  assert (Hbool : str_bool (Some (lower estado)) = str_bool (Some estado))
    by now destruct estado.
  unfold row_selected. rewrite Hbool. cbn [default]. unfold Datatypes.id.
  now rewrite lower_idempotent.
Qed.

(** X26.  What the conditions of [GET /productos/] let through: an empty
    [estado], a [proveedor_id] of 0 and an empty [search] are false in
    Python and filter nothing, as if they were left out; and the state is
    compared in lower case, so the letter case of [estado] does not
    matter. *)
Theorem productos_page_ignores_false_filters (skip limit : Z)
    (estado : option string) (proveedor_id : option Z) (search : option string)
    (db : Catalogo) :
  page skip limit (Some "") proveedor_id search db
  = page skip limit None proveedor_id search db
  /\ page skip limit estado (Some 0) search db
     = page skip limit estado None search db
  /\ page skip limit estado proveedor_id (Some "") db
     = page skip limit estado proveedor_id None db
  /\ (forall e,
        page skip limit (Some (lower e)) proveedor_id search db
        = page skip limit (Some e) proveedor_id search db).
Proof.
  split; [reflexivity|]. split; [reflexivity|]. split; [reflexivity|].
  intros e. unfold productos_page. do 3 f_equal.
  apply list_filter_iff. intros row. now rewrite row_selected_lower.
Qed.

Hypothesis columns_ok : productos_columns_ok productos_cursor.

Lemma build_Productos_of_tuples (rows : list Producto) (operation : string) :
  build_Productos str_ValidationError
    (map (dict_zip (map fst productos_cursor.(description)))
         (map (tuple_of productos_cursor) rows)) operation
  = Return rows.
Proof.
  induction rows as [|row rest IH]; [reflexivity|].
  cbn [map build_Productos].
  rewrite build_Producto_of_tuple by assumption. cbn [bind].
  now rewrite IH.
Qed.

(** X27.  [GET /productos/] answers with exactly the page of the query:
    the rows survive the way through tuples and dictionaries, whatever
    the order of the columns.  A negative [skip] or a [limit] outside 1
    to 100 is refused before the query runs, so an answer never has more
    than 100 products. *)
Theorem obtener_productos_returns_the_page (current_user : Usuario)
    (skip limit : Z) (estado : option string) (proveedor_id : option Z)
    (search : option string) (db : Catalogo) :
  (skip < 0 \/ limit < 1 \/ 100 < limit ->
   exists field,
     obtener_productos_endpoint productos_cursor ILIKE str_ValidationError
       current_user skip limit estado proveedor_id search db
     = Raise (RequestValidationError field))
  /\ (0 <= skip -> 1 <= limit <= 100 ->
      obtener_productos_endpoint productos_cursor ILIKE str_ValidationError
        current_user skip limit estado proveedor_id search db
      = Return (page skip limit estado proveedor_id search db)
      /\ (length (page skip limit estado proveedor_id search db) <= 100)%nat).
Proof.
  unfold obtener_productos_endpoint, pagination_errors.
  destruct (Z.ltb_spec skip 0) as [Hs|Hs];
    destruct (Z.ltb_spec limit 1) as [Hl1|Hl1];
    destruct (Z.ltb_spec 100 limit) as [Hl2|Hl2]; cbn [orb app].
  all: split; [intros Hbad; try lia; eauto | intros Hskip Hlimit; try lia].
  split.
  - unfold obtener_productos. cbn zeta.
    rewrite rows_to_dict_list_map. apply build_Productos_of_tuples.
  - unfold productos_page. rewrite length_take. lia.
Qed.

(** X21.  [eliminar_producto] removes every product with the identifier
    and nothing else; it raises the 404 of the handler exactly when there
    was none, and then the table is unchanged.  Afterwards
    [obtener_producto] answers 404 for the identifier and answers as
    before for every other identifier. *)
Theorem eliminar_then_obtener (producto_id : Z) (current_user : Usuario)
    (db : Catalogo) :
  let result := eliminar_producto producto_id current_user db in
  (fst result = Raise not_found_producto <->
   forall p, In p db.(productos) -> p.(p_id) <> producto_id)
  /\ (fst result = Raise not_found_producto ->
      (snd result).(productos) = db.(productos))
  /\ (forall p, In p (snd result).(productos) <->
                In p db.(productos) /\ p.(p_id) <> producto_id)
  /\ obtener_producto productos_cursor str_ValidationError producto_id
       current_user (snd result) = Raise not_found_producto
  /\ (forall other, other <> producto_id ->
        obtener_producto productos_cursor str_ValidationError other
          current_user (snd result)
        = obtener_producto productos_cursor str_ValidationError other
            current_user db).
Proof.
  intros result. subst result. unfold eliminar_producto. cbn zeta.
  pose proof (rowcount_zero db.(productos) producto_id) as Hcount.
  assert (Hmember : forall p,
    In p (filter (fun r => r.(p_id) <> producto_id) db.(productos)) <->
    In p db.(productos) /\ p.(p_id) <> producto_id).
  { intros p. rewrite <- !list_elem_of_In, list_elem_of_filter. tauto. }
  assert (Hgone :
    obtener_producto productos_cursor str_ValidationError producto_id
      current_user
      {| productos := filter (fun r => r.(p_id) <> producto_id) db.(productos);
         productos_id_seq := db.(productos_id_seq);
         proveedores := db.(proveedores);
         impuestos := db.(impuestos) |} = Raise not_found_producto).
  { rewrite obtener_producto_find by assumption. cbn [productos].
    rewrite find_by_id_None; [reflexivity|].
    intros p Hin. now apply Hmember in Hin. }
  assert (Hothers : forall other, other <> producto_id ->
    obtener_producto productos_cursor str_ValidationError other current_user
      {| productos := filter (fun r => r.(p_id) <> producto_id) db.(productos);
         productos_id_seq := db.(productos_id_seq);
         proveedores := db.(proveedores);
         impuestos := db.(impuestos) |}
    = obtener_producto productos_cursor str_ValidationError other
        current_user db).
  { intros other Hother. rewrite !obtener_producto_find by assumption.
    cbn [productos]. now rewrite find_by_id_filter. }
  destruct (Nat.eqb_spec
              (length (filter (fun r => r.(p_id) = producto_id) db.(productos)))
              0) as [Hzero|Hsome]; cbn [fst snd productos].
  - split; [tauto|]. split; [|auto].
    intros _. pose proof (proj1 Hcount Hzero) as Hnone.
    clear Hgone Hothers Hmember Hcount Hzero.
    induction db.(productos) as [|first rest IH]; [reflexivity|].
    rewrite filter_cons_True by (apply Hnone; now left).
    f_equal. apply IH. intros p Hin. apply Hnone. now right.
  - split; [|split; [discriminate | auto]].
    split; [discriminate|]. intros Hnone. now apply (proj2 Hcount) in Hnone.
Qed.

End Listing.

(* ===================================================================== *)
(** ** Updating, and what the product operations keep *)
(* ===================================================================== *)

Lemma update_row_keeps_id (producto_id : Z) (producto : ProductoCreate)
    (row : Producto) :
  (update_row producto_id producto row).(p_id) = row.(p_id).
Proof.
  unfold update_row. destruct (Z.eqb_spec row.(p_id) producto_id);
    [cbn; congruence | reflexivity].
Qed.

Lemma update_keeps_ids (producto_id : Z) (producto : ProductoCreate)
    (rows : list Producto) :
  map p_id (map (update_row producto_id producto) rows) = map p_id rows.
Proof.
  induction rows as [|row rest IH]; [reflexivity|].
  cbn [map]. now rewrite update_row_keeps_id, IH.
Qed.

Lemma update_without_match (producto_id : Z) (producto : ProductoCreate)
    (rows : list Producto) :
  (forall r, In r rows -> r.(p_id) <> producto_id) ->
  map (update_row producto_id producto) rows = rows.
Proof.
  induction rows as [|row rest IH]; intros Hnone; [reflexivity|].
  cbn [map]. rewrite IH by (intros r Hin; apply Hnone; now right).
  unfold update_row.
  destruct (Z.eqb_spec row.(p_id) producto_id) as [Heq|]; [|reflexivity].
  now destruct (Hnone row (or_introl eq_refl)).
Qed.

Lemma updated_name (producto_id : Z) (producto : ProductoCreate)
    (rows : list Producto) (name : string) :
  In name (map p_nombre (map (update_row producto_id producto) rows)) ->
  In name (map p_nombre rows) \/ name = producto.(nombre).
Proof.
  induction rows as [|row rest IH]; [intros []|].
  cbn [map]. intros [Hhead|Htail].
  - unfold update_row in Hhead.
    destruct (Z.eqb row.(p_id) producto_id); cbn in Hhead; subst name;
      [now right | left; now left].
  - destruct (IH Htail) as [Hold|Hnew]; [left; now right | now right].
Qed.

Lemma update_keeps_names_apart (producto_id : Z) (producto : ProductoCreate)
    (rows : list Producto) :
  NoDup (map p_id rows) ->
  NoDup (map p_nombre rows) ->
  (forall r, In r rows -> r.(p_nombre) = producto.(nombre) ->
             r.(p_id) = producto_id) ->
  NoDup (map p_nombre (map (update_row producto_id producto) rows)).
Proof.
  induction rows as [|row rest IH]; intros Hids Hnames Hsame;
    [constructor|].
  cbn [map] in *.
  apply NoDup_cons in Hids as [Hid Hids].
  apply NoDup_cons in Hnames as [Hname Hnames].
  rewrite list_elem_of_In in Hid. rewrite list_elem_of_In in Hname.
  assert (Hsame' : forall r, In r rest -> r.(p_nombre) = producto.(nombre) ->
                             r.(p_id) = producto_id)
    by (intros r Hin; apply Hsame; now right).
  apply NoDup_cons. split; [|now apply IH].
  rewrite list_elem_of_In. unfold update_row at 1.
  destruct (Z.eqb_spec row.(p_id) producto_id) as [Heq|Hne]; cbn.
  - rewrite update_without_match.
    + intros Hin. apply in_map_iff in Hin as (r & Hr & Hin).
      apply Hid. apply in_map_iff. exists r. split; [|assumption].
      rewrite (Hsame' r Hin Hr). congruence.
    + intros r Hin Hr. apply Hid. apply in_map_iff. exists r.
      split; [congruence | assumption].
  - intros Hin. apply updated_name in Hin as [Hold|Hnew]; [contradiction|].
    apply Hne. apply Hsame; [now left | assumption].
Qed.

Lemma same_name_same_row (rows : list Producto) (a b : Producto) :
  NoDup (map p_nombre rows) ->
  In a rows -> In b rows -> a.(p_nombre) = b.(p_nombre) -> a = b.
Proof.
  induction rows as [|row rest IH]; intros Hnames Ha Hb Hsame; [destruct Ha|].
  cbn [map] in Hnames. apply NoDup_cons in Hnames as [Hname Hnames].
  rewrite list_elem_of_In in Hname.
  destruct Ha as [<-|Ha], Hb as [<-|Hb]; [reflexivity | | |now apply IH].
  - exfalso. apply Hname. apply in_map_iff. exists b. auto.
  - exfalso. apply Hname. apply in_map_iff. exists a. auto.
Qed.

Lemma other_name_taken_spec (rows : list Producto) (name : string)
    (producto_id : Z) :
  existsb (fun r => String.eqb r.(p_nombre) name
                    && negb (Z.eqb r.(p_id) producto_id)) rows = false <->
  forall r, In r rows -> r.(p_nombre) = name -> r.(p_id) = producto_id.
Proof.
  split.
  - intros Hnone r Hin Hname.
    destruct (Z.eqb_spec r.(p_id) producto_id) as [|Hne]; [assumption|].
    assert (existsb (fun r => String.eqb r.(p_nombre) name
                              && negb (Z.eqb r.(p_id) producto_id)) rows
            = true); [|congruence].
    apply existsb_exists. exists r. split; [assumption|].
    apply andb_true_iff. split; [now apply String.eqb_eq|].
    apply negb_true_iff. now apply Z.eqb_neq.
  - intros Hall. apply not_true_is_false. intros Hex.
    apply existsb_exists in Hex as (r & Hin & Hboth).
    apply andb_true_iff in Hboth as [Hname Hid].
    apply String.eqb_eq in Hname. apply negb_true_iff, Z.eqb_neq in Hid.
    apply Hid. now apply Hall.
Qed.

(** X22.  [actualizar_producto] succeeds exactly when a product with the
    identifier exists, the supplier and the tax pass their checks, and
    the new name is the name the product already has or the name of no
    other product; the answer is then the new values under the old
    identifier.  The identifiers of the table, and their order, are the
    same after the call as before, in every case. *)
Theorem actualizar_producto_succeeds (producto_id : Z)
    (producto : ProductoCreate) (current_user : Usuario) (db : Catalogo) :
  (forall r,
      fst (actualizar_producto producto_id producto current_user db) = Return r
      <-> r = Producto_of_create producto_id producto
          /\ exists existente,
               List.find (fun p => Z.eqb p.(p_id) producto_id) db.(productos)
               = Some existente
               /\ (forall ids, db.(proveedores) = Some ids ->
                               In producto.(proveedor_id) ids)
               /\ (forall ids, db.(impuestos) = Some ids ->
                               In producto.(impuesto_id) ids)
               /\ (producto.(nombre) = existente.(p_nombre)
                   \/ forall p, In p db.(productos) ->
                        p.(p_nombre) = producto.(nombre) ->
                        p.(p_id) = producto_id))
  /\ map p_id (snd (actualizar_producto producto_id producto current_user db))
               .(productos)
     = map p_id db.(productos).
Proof.
  unfold actualizar_producto.
  destruct (List.find _ db.(productos)) as [existente|] eqn:Hfind.
  2:{ split; [|reflexivity]. intros r.
      split; [discriminate | intros (_ & x & [=] & _)]. }
  setoid_rewrite <- validar_proveedor_Return.
  setoid_rewrite <- validar_impuesto_Return.
  destruct (validar_proveedor db producto.(proveedor_id)) as [[]|e1].
  2:{ split; [|reflexivity]. intros r.
      split; [discriminate | intros (_ & x & _ & [=] & _)]. }
  destruct (validar_impuesto db producto.(impuesto_id)) as [[]|e2].
  2:{ split; [|reflexivity]. intros r.
      split; [discriminate | intros (_ & x & _ & _ & [=] & _)]. }
  cbn zeta.
  pose proof (other_name_taken_spec db.(productos) producto.(nombre)
                producto_id) as Hother.
  assert (Hrows :
    (length (filter (fun r => r.(p_id) = producto_id) db.(productos)) =? 0)%nat
    = false).
  { apply Nat.eqb_neq. intros Hzero.
    apply find_some in Hfind as [Hin Hid]. apply Z.eqb_eq in Hid.
    now apply (proj1 (rowcount_zero _ _) Hzero existente Hin). }
  destruct (String.eqb_spec producto.(nombre) existente.(p_nombre))
    as [Hsame|Hchanged]; cbn [negb andb].
  - rewrite Hrows. cbn [fst snd productos].
    split; [|apply update_keeps_ids]. intros r. split.
    + intros [= <-]. split; [reflexivity|]. exists existente. auto.
    + intros [-> _]. reflexivity.
  - destruct (existsb _ db.(productos)) eqn:Htaken.
    + split; [|reflexivity]. intros r. split; [discriminate|].
      intros (_ & x & [= <-] & _ & _ & [Hsame|Hfree]); [contradiction|].
      apply Hother in Hfree. congruence.
    + rewrite Hrows. cbn [fst snd productos].
      split; [|apply update_keeps_ids]. intros r. split.
      * intros [= <-]. split; [reflexivity|]. exists existente.
        repeat split; auto. right. now apply Hother.
      * intros [-> _]. reflexivity.
Qed.

Lemma ids_below_seq (rows : list Producto) (seq : Z) :
  Forall (fun row => row.(p_id) < seq) rows <->
  Forall (fun i => i < seq) (map p_id rows).
Proof. change (map p_id rows) with (p_id <$> rows). now rewrite Forall_fmap. Qed.

(** X23.  The three writing operations keep the table of products well
    formed: from a table without a repeated identifier or name whose
    identifiers are below the sequence, [crear_producto],
    [actualizar_producto] and [eliminar_producto] each leave such a
    table, whether they succeed or raise. *)
Theorem product_operations_keep_productos_ok (producto_id : Z)
    (producto : ProductoCreate) (current_user : Usuario) (db : Catalogo) :
  productos_ok db ->
  productos_ok (snd (crear_producto producto current_user db))
  /\ productos_ok (snd (actualizar_producto producto_id producto
                          current_user db))
  /\ productos_ok (snd (eliminar_producto producto_id current_user db)).
Proof.
  intros Hok. pose proof Hok as (Hids & Hnames & Hbelow).
  split; [|split].
  - unfold crear_producto.
    destruct (validar_proveedor db producto.(proveedor_id)) as [[]|e1];
      [|assumption].
    destruct (validar_impuesto db producto.(impuesto_id)) as [[]|e2];
      [|assumption].
    destruct (existsb _ db.(productos)) eqn:Htaken; [assumption|].
    cbn zeta. unfold productos_ok. cbn [snd productos productos_id_seq].
    rewrite !map_app. cbn [map Producto_of_create p_id p_nombre].
    split; [|split].
    + apply NoDup_app. split; [assumption|]. split; [|apply NoDup_singleton].
      intros i Hin Hnew. apply list_elem_of_singleton in Hnew. subst i.
      apply ids_below_seq in Hbelow. rewrite Forall_forall in Hbelow.
      specialize (Hbelow _ Hin). cbn in Hbelow. lia.
    + apply NoDup_app. split; [assumption|]. split; [|apply NoDup_singleton].
      intros name Hin Hnew. apply list_elem_of_singleton in Hnew. subst name.
      apply list_elem_of_In, in_map_iff in Hin as (p & Hp & Hin).
      assert (existsb (fun row => (row.(p_nombre) =? producto.(nombre))%string)
                      db.(productos) = true); [|congruence].
      apply name_taken_spec. eauto.
    + apply Forall_app. split.
      * eapply Forall_impl; [exact Hbelow|]. cbn. intros p Hp. lia.
      * apply Forall_singleton. cbn. lia.
  - unfold actualizar_producto.
    destruct (List.find _ db.(productos)) as [existente|] eqn:Hfind;
      [|assumption].
    destruct (validar_proveedor db producto.(proveedor_id)) as [[]|e1];
      [|assumption].
    destruct (validar_impuesto db producto.(impuesto_id)) as [[]|e2];
      [|assumption].
    cbn zeta.
    apply find_some in Hfind as [Hin Hid]. apply Z.eqb_eq in Hid.
    assert (Hupdated : forall Hsame :
              (forall r, In r db.(productos) ->
                 r.(p_nombre) = producto.(nombre) -> r.(p_id) = producto_id),
              productos_ok
                {| productos := map (update_row producto_id producto)
                                    db.(productos);
                   productos_id_seq := db.(productos_id_seq);
                   proveedores := db.(proveedores);
                   impuestos := db.(impuestos) |}).
    { intros Hsame. unfold productos_ok. cbn [productos productos_id_seq].
      split; [|split].
      - now rewrite update_keeps_ids.
      - now apply update_keeps_names_apart.
      - apply ids_below_seq. rewrite update_keeps_ids.
        now apply ids_below_seq. }
    destruct (String.eqb_spec producto.(nombre) existente.(p_nombre))
      as [Hsame|Hchanged]; cbn [negb andb].
    + assert (Hrows : forall r, In r db.(productos) ->
                r.(p_nombre) = producto.(nombre) -> r.(p_id) = producto_id).
      { intros r Hr Hname.
        rewrite (same_name_same_row db.(productos) r existente); auto.
        congruence. }
      destruct (_ =? _)%nat; cbn [snd]; now apply Hupdated.
    + destruct (existsb _ db.(productos)) eqn:Htaken; [assumption|].
      pose proof (proj1 (other_name_taken_spec _ _ _) Htaken) as Hfree.
      destruct (_ =? _)%nat; cbn [snd]; now apply Hupdated.
  - unfold eliminar_producto. cbn zeta.
    assert (Hkept :
      productos_ok
        {| productos := filter (fun r => r.(p_id) <> producto_id) db.(productos);
           productos_id_seq := db.(productos_id_seq);
           proveedores := db.(proveedores);
           impuestos := db.(impuestos) |}).
    { unfold productos_ok. cbn [productos productos_id_seq].
      split; [|split].
      - eapply sublist_NoDup; [exact Hids|].
        apply (fmap_sublist p_id), sublist_filter.
      - eapply sublist_NoDup; [exact Hnames|].
        apply (fmap_sublist p_nombre), sublist_filter.
      - apply Forall_forall. intros p Hp.
        apply list_elem_of_filter in Hp as [_ Hp].
        rewrite Forall_forall in Hbelow. now apply Hbelow. }
    destruct (_ =? _)%nat; cbn [snd]; exact Hkept.
Qed.

(* ===================================================================== *)
(** ** The further statements on the sample instance *)
(* ===================================================================== *)

Module MoreRuns.
Import Sample SampleCatalogo.

Lemma sample_columns_ok : productos_columns_ok productos_cursor.
Proof.
  split.
  - apply (bool_decide_unpack _). vm_compute. exact I.
  - unfold Producto_fields.
    repeat (apply Forall_cons; split; [cbn; tauto|]). apply Forall_nil_2.
Qed.

Lemma sample_productos_ok : productos_ok catalogo.
Proof.
  split; [|split].
  - apply (bool_decide_unpack _). vm_compute. exact I.
  - apply (bool_decide_unpack _). vm_compute. exact I.
  - repeat (apply Forall_cons; split; [cbn; lia|]). apply Forall_nil_2.
Qed.

Lemma sample_usuarios_ok : usuarios_ok store.
Proof.
  split; [|split].
  - apply (bool_decide_unpack _). vm_compute. exact I.
  - apply (bool_decide_unpack _). vm_compute. exact I.
  - repeat (apply Forall_cons; split; [cbn; lia|]). apply Forall_nil_2.
Qed.

Lemma carol_is_new :
  forall row, In row store.(usuarios) ->
    row.(username) <> carol.(uc_username) /\ row.(email) <> carol.(uc_email).
Proof. intros row [<-|[]]. split; discriminate. Qed.

Lemma authorized_user_is_the_subject_witness :
  In alice [alice]
  /\ alice.(is_active) = true
  /\ exists token_data payload,
       oauth2_scheme (security := security) (bearer token_of_alice)
       = Return token_data
       /\ verify_token (jose := jose) SECRET_KEY token_data.(credentials) 1500
          = Return payload
       /\ dict_get payload "sub" = VStr alice.(username).
Proof.
  apply (authorized_user_is_the_subject (security := security) SECRET_KEY
           [alice] (bearer token_of_alice) 1500 alice).
  vm_compute. reflexivity.
Defined.

Lemma authorization_failures_witness :
  oauth2_scheme (security := security) {| Bearer.authorization := None |}
  = Raise MissingCredential
  \/ MissingCredential = token_rejected \/ MissingCredential = subject_missing
  \/ MissingCredential = user_not_found \/ MissingCredential = inactive_user.
Proof.
  apply (authorization_failures (security := security) SECRET_KEY [alice]
           {| Bearer.authorization := None |} 1500 MissingCredential).
  reflexivity.
Defined.

Lemma login_then_authorized_witness :
  exists user,
    authenticate_user (pwd_context := pwd_context) [alice]
      login_of_alice.(lr_username) login_of_alice.(lr_password) = Some user
    /\ Depends_get_current_active_user (security := security) SECRET_KEY
         [alice] (bearer token_of_alice) 1500 = Return user.
Proof.
  apply (login_then_authorized (jose := jose) (pwd_context := pwd_context)
           (security := security) SECRET_KEY ACCESS_TOKEN_EXPIRE_MINUTES
           (codec_decode_encode mac) [alice] login_of_alice
           {| access_token := token_of_alice; token_type := "bearer" |}
           (bearer token_of_alice)
           {| scheme := "Bearer"; credentials := token_of_alice |} 1000 1500).
  - vm_compute. reflexivity.
  - reflexivity.
  - reflexivity.
  - vm_compute. reflexivity.
Defined.


Lemma register_keeps_usuarios_ok_witness :
  usuarios_ok (snd (register (pwd_context := pwd_context) "s"%char carol store)).
Proof.
  exact (register_keeps_usuarios_ok (pwd_context := pwd_context) "s"%char
           carol store sample_usuarios_ok).
Defined.

Lemma register_then_authenticate_witness :
  authenticate_user (pwd_context := pwd_context)
    (snd (register (pwd_context := pwd_context) "s"%char carol store))
      .(usuarios)
    "carol" "secret3"
  = Some (registered_row (pwd_context := pwd_context) "s"%char carol store).
Proof.
  apply (register_then_authenticate (pwd_context := pwd_context) "s"%char
           carol store).
  - reflexivity.
  - exact carol_is_new.
Defined.

Lemma register_keeps_other_users_witness :
  get_user_by_username
    (snd (register (pwd_context := pwd_context) "s"%char carol store))
      .(usuarios) (VStr "alice")
  = get_user_by_username store.(usuarios) (VStr "alice").
Proof.
  apply (register_keeps_other_users (pwd_context := pwd_context) "s"%char
           carol store "alice").
  discriminate.
Defined.

Lemma row_to_dict_reads_back_witness :
  row_to_dict productos_cursor (@None (list cell)) = None
  /\ exists d,
       row_to_dict productos_cursor (Some (tuple_of productos_cursor raton))
       = Some d
       /\ d !! "id" = Some (CInt 1).
Proof.
  apply (row_to_dict_reads_back productos_cursor
           (tuple_of productos_cursor raton) 1 "id" 23 (CInt 1)).
  - apply sample_columns_ok.
  - reflexivity.
  - reflexivity.
Defined.

Lemma crear_then_obtener_witness :
  obtener_producto productos_cursor str_ValidationError 3 alice
    (snd (crear_producto teclado alice catalogo))
  = Return (Producto_of_create 3 teclado).
Proof.
  apply (crear_then_obtener productos_cursor str_ValidationError teclado
           alice catalogo (Producto_of_create 3 teclado)).
  - apply sample_columns_ok.
  - apply sample_productos_ok.
  - reflexivity.
Defined.

Lemma obtener_producto_by_column_name_witness :
  obtener_producto productos_cursor str_ValidationError 1 alice catalogo
  = Return raton
  /\ obtener_producto productos_cursor str_ValidationError 7 alice catalogo
     = Raise not_found_producto.
Proof.
  destruct (obtener_producto_by_column_name productos_cursor
              str_ValidationError sample_columns_ok 1 alice catalogo)
    as [Hfound _].
  destruct (obtener_producto_by_column_name productos_cursor
              str_ValidationError sample_columns_ok 7 alice catalogo)
    as [_ Hmissing].
  split.
  - apply Hfound. reflexivity.
  - apply Hmissing. intros p [<-|[<-|[]]]; discriminate.
Defined.

Lemma eliminar_then_obtener_witness :
  obtener_producto productos_cursor str_ValidationError 1 alice
    (snd (eliminar_producto 1 alice catalogo))
  = Raise not_found_producto
  /\ obtener_producto productos_cursor str_ValidationError 2 alice
       (snd (eliminar_producto 1 alice catalogo))
     = obtener_producto productos_cursor str_ValidationError 2 alice catalogo.
Proof.
  pose proof (eliminar_then_obtener productos_cursor str_ValidationError
                sample_columns_ok 1 alice catalogo) as Hdeleted.
  cbv zeta in Hdeleted. destruct Hdeleted as (_ & _ & _ & Hgone & Hothers).
  split; [exact Hgone | apply Hothers; discriminate].
Defined.

Lemma product_operations_keep_productos_ok_witness :
  productos_ok (snd (crear_producto teclado alice catalogo))
  /\ productos_ok (snd (actualizar_producto 1 teclado alice catalogo))
  /\ productos_ok (snd (eliminar_producto 1 alice catalogo)).
Proof.
  exact (product_operations_keep_productos_ok 1 teclado alice catalogo
           sample_productos_ok).
Defined.

Lemma productos_pages_compose_witness :
  productos_page ILIKE 0 (1 + 1) None None None catalogo
  = (productos_page ILIKE 0 1 None None None catalogo
     ++ productos_page ILIKE (0 + 1) 1 None None None catalogo)%list.
Proof.
  apply (productos_pages_compose ILIKE 0 1 1 None None None catalogo); lia.
Defined.

Lemma obtener_productos_returns_the_page_witness :
  obtener_productos_endpoint productos_cursor ILIKE str_ValidationError
    alice 0 10 (Some "ACTIVO") None (Some "raton") catalogo
  = Return [raton]
  /\ exists field,
       obtener_productos_endpoint productos_cursor ILIKE str_ValidationError
         alice 0 101 None None None catalogo
       = Raise (RequestValidationError field).
Proof.
  destruct (obtener_productos_returns_the_page productos_cursor ILIKE
              str_ValidationError sample_columns_ok alice 0 10
              (Some "ACTIVO") None (Some "raton") catalogo) as [_ Hpage].
  destruct (obtener_productos_returns_the_page productos_cursor ILIKE
              str_ValidationError sample_columns_ok alice 0 101
              None None None catalogo) as [Hrefused _].
  split.
  - destruct Hpage as [Hanswer _]; [lia | lia |]. exact Hanswer.
  - apply Hrefused. lia.
Defined.

(** The listing on the sample catalogue is in ascending order of
    identifier, although the table is not. *)
Example listing_is_ordered :
  productos_page ILIKE 0 10 None None None catalogo = [raton; pantalla].
Proof. reflexivity. Qed.

(** An integrity error that names a UNIQUE constraint in capitals. *)
Example unique_violation_is_409 :
  handle_db_exception
    (IntegrityError "ERROR: Duplicate key value violates UNIQUE constraint")
    "crear_producto"
  = HTTPException 409 "Ya existe un producto con ese nombre" [].
Proof. reflexivity. Qed.

End MoreRuns.
